(** * Court-address reconciliation: normalisation, matching and merge

    A shallow embedding of [scripts/validate_court_addresses.py] and
    [scripts/apply_verified_address_updates.py].

    Data model.  A Python [str] is a Rocq [string], one character per code
    point, for the code points below 256.  A [float] is an IEEE binary64
    number, as Rocq's primitive floats are: the arithmetic of the scores is
    the one Python performs.  A [dict] with string keys is a [gmap string _],
    a [set] of strings a [gset string], a dataclass a [Record]. *)

From Stdlib Require Import ZArith NArith List Ascii String Bool Lia.
From Stdlib Require Import Floats.PrimFloat Numbers.Cyclic.Int63.Uint63.
From stdpp Require Import base decidable option list strings gmap.

Local Open Scope string_scope.
Local Open Scope Z_scope.
Set Warnings "-inexact-float,-unused-intro-pattern".

(** ** Python's string primitives *)

Module Py.

Definition code (c : ascii) : N := N_of_ascii c.

(** [str.isspace] on one character; [str.strip], [str.split] without an
    argument and the regular expression class [\s] all use it. *)
Definition is_space (c : ascii) : bool :=
  let n := code c in
  ((9 <=? n) && (n <=? 13) || (28 <=? n) && (n <=? 32)
   || (n =? 133) || (n =? 160))%N.

(** [str.lower] on one character. *)
Definition lower_char (c : ascii) : ascii :=
  let n := code c in
  if ((65 <=? n) && (n <=? 90)
      || (192 <=? n) && (n <=? 222) && negb (n =? 215))%N
  then ascii_of_N (n + 32) else c.

Definition chars (s : string) : list ascii := list_ascii_of_string s.
Definition str (l : list ascii) : string := string_of_list_ascii l.

Fixpoint lstrip_chars (l : list ascii) : list ascii :=
  match l with
  | c :: r => if is_space c then lstrip_chars r else l
  | [] => []
  end.

Definition strip_chars (l : list ascii) : list ascii :=
  rev (lstrip_chars (rev (lstrip_chars l))).

(** [s.strip()] *)
Definition strip (s : string) : string := str (strip_chars (chars s)).

(** [s.lower()] *)
Definition lower (s : string) : string := str (map lower_char (chars s)).

(** Truth value of a string: [bool(s)]. *)
Definition truthy (s : string) : bool :=
  match s with EmptyString => false | String _ _ => true end.

(** [a or b] on strings. *)
Definition or_else (a b : string) : string := if truthy a then a else b.

(** [s.split(sep)] for a one-character separator: the pieces between the
    separators, empty ones kept; the accumulator holds the current piece
    reversed. *)
Fixpoint split_on_aux (sep : ascii) (acc : list ascii) (l : list ascii)
  : list (list ascii) :=
  match l with
  | [] => [rev acc]
  | c :: r =>
      if Ascii.eqb c sep then rev acc :: split_on_aux sep [] r
      else split_on_aux sep (c :: acc) r
  end.

Definition split_on (sep : ascii) (s : string) : list string :=
  map str (split_on_aux sep [] (chars s)).

(** [s.split()]: the maximal runs of characters that are not white space. *)
Fixpoint split_ws_aux (acc : list ascii) (l : list ascii)
  : list (list ascii) :=
  match l with
  | [] => match acc with [] => [] | _ => [rev acc] end
  | c :: r =>
      if is_space c
      then match acc with
           | [] => split_ws_aux [] r
           | _ => rev acc :: split_ws_aux [] r
           end
      else split_ws_aux (c :: acc) r
  end.

Definition split_ws (s : string) : list string :=
  map str (split_ws_aux [] (chars s)).

(** [sep.join(parts)] *)
Fixpoint join (sep : string) (parts : list string) : string :=
  match parts with
  | [] => ""
  | [p] => p
  | p :: rest => p ++ sep ++ join sep rest
  end.

Fixpoint is_prefix (p l : list ascii) : bool :=
  match p, l with
  | [], _ => true
  | _ :: _, [] => false
  | x :: p', y :: l' => Ascii.eqb x y && is_prefix p' l'
  end.

Fixpoint contains_chars (p l : list ascii) : bool :=
  is_prefix p l ||
  match l with
  | [] => false
  | _ :: l' => contains_chars p l'
  end.

(** [needle in hay] on strings. *)
Definition contains (needle hay : string) : bool :=
  contains_chars (chars needle) (chars hay).

(** [re.sub(r"[\.,]", " ", s)] on the characters. *)
Definition sub_punct_char (c : ascii) : ascii :=
  if Ascii.eqb c "." || Ascii.eqb c "," then " "%char else c.

(** [re.sub(r"\s+", " ", s)] on the characters: every maximal run of white
    space becomes one space; [in_run] tells that the previous character
    was white space. *)
Fixpoint collapse_ws (in_run : bool) (l : list ascii) : list ascii :=
  match l with
  | [] => []
  | c :: r =>
      if is_space c
      then if in_run then collapse_ws true r
           else " "%char :: collapse_ws true r
      else c :: collapse_ws false r
  end.

(** Truth value of a list: [bool(l)]. *)
Definition nonempty {A : Type} (l : list A) : bool :=
  match l with [] => false | _ :: _ => true end.

(** [d.get(k, "")] *)
Definition get (d : gmap string string) (k : string) : string :=
  default "" (d !! k).

Arguments get : simpl never.

End Py.

(** ** difflib.SequenceMatcher(None, a, b).ratio()

    The standard-library matcher behind [name_similarity], with no junk
    predicate and the default [autojunk]: indices are Python integers. *)

Module Difflib.

Definition block : Type := Z * Z * Z.
Definition window : Type := Z * Z * Z * Z.

Fixpoint indices (c : ascii) (b : list ascii) (j : Z) : list Z :=
  match b with
  | [] => []
  | x :: r =>
      if Ascii.eqb x c then j :: indices c r (j + 1)
      else indices c r (j + 1)
  end.

(** [b2j.get(c, [])] after [__chain_b]: the positions of [c] in [b], none
    for a character that is "popular" in a [b] of 200 characters or more. *)
Definition b2j (b : list ascii) (c : ascii) : list Z :=
  let idxs := indices c b 0 in
  let n := Z.of_nat (length b) in
  if (200 <=? n) && (n / 100 + 1 <? Z.of_nat (length idxs)) then []
  else idxs.

Definition same_at (a b : list ascii) (i j : Z) : bool :=
  match a !! Z.to_nat i, b !! Z.to_nat j with
  | Some x, Some y => Ascii.eqb x y
  | _, _ => false
  end.

(** The loop [for j in b2j.get(a[i], nothing)] of [find_longest_match]. *)
Fixpoint scan_j (js : list Z) (i blo bhi : Z) (j2len newj2len : gmap Z Z)
    (best : block) : gmap Z Z * block :=
  match js with
  | [] => (newj2len, best)
  | j :: rest =>
      if j <? blo then scan_j rest i blo bhi j2len newj2len best
      else if bhi <=? j then (newj2len, best)
      else
        let k := default 0 (j2len !! (j - 1)) + 1 in
        let newj2len := <[j := k]> newj2len in
        let best :=
          if best.2 <? k then (i - k + 1, j - k + 1, k) else best in
        scan_j rest i blo bhi j2len newj2len best
  end.

(** The loop [for i in range(alo, ahi)]; [ai] holds [a[i:ahi]]. *)
Fixpoint scan_i (ai : list ascii) (b : list ascii) (i blo bhi : Z)
    (j2len : gmap Z Z) (best : block) : block :=
  match ai with
  | [] => best
  | c :: rest =>
      let '(newj2len, best) := scan_j (b2j b c) i blo bhi j2len ∅ best in
      scan_i rest b (i + 1) blo bhi newj2len best
  end.

(** The two loops that extend the block with matching characters on each
    side; each runs at most as often as there is room, which is its fuel. *)
Fixpoint extend_left (fuel : nat) (a b : list ascii) (alo blo : Z)
    (best : block) : block :=
  match fuel with
  | O => best
  | S fuel =>
      let '(besti, bestj, bestsize) := best in
      if (alo <? besti) && (blo <? bestj)
         && same_at a b (besti - 1) (bestj - 1)
      then extend_left fuel a b alo blo (besti - 1, bestj - 1, bestsize + 1)
      else best
  end.

Fixpoint extend_right (fuel : nat) (a b : list ascii) (ahi bhi : Z)
    (best : block) : block :=
  match fuel with
  | O => best
  | S fuel =>
      let '(besti, bestj, bestsize) := best in
      if (besti + bestsize <? ahi) && (bestj + bestsize <? bhi)
         && same_at a b (besti + bestsize) (bestj + bestsize)
      then extend_right fuel a b ahi bhi (besti, bestj, bestsize + 1)
      else best
  end.

(** The loops over junk do nothing: there is no junk. *)
Definition find_longest_match (a b : list ascii) (alo ahi blo bhi : Z)
  : block :=
  let ai := take (Z.to_nat (ahi - alo)) (drop (Z.to_nat alo) a) in
  let best := scan_i ai b alo blo bhi ∅ (alo, blo, 0) in
  let best := extend_left (Z.to_nat (best.1.1 - alo)) a b alo blo best in
  extend_right (Z.to_nat (ahi - (best.1.1 + best.2))) a b ahi bhi best.

(** The loop [while queue] of [get_matching_blocks]; the head of [queue]
    is the end of Python's list.  Every round either removes a window or
    replaces it by narrower ones around a block, so twice the length of
    [a] and two more rounds are enough. *)
Fixpoint blocks_loop (fuel : nat) (a b : list ascii) (queue : list window)
    (matching_blocks : list block) : list block :=
  match fuel, queue with
  | O, _ | _, [] => matching_blocks
  | S fuel, (alo, ahi, blo, bhi) :: queue =>
      let '(i, j, k) := find_longest_match a b alo ahi blo bhi in
      if k =? 0 then blocks_loop fuel a b queue matching_blocks
      else
        let queue :=
          if (alo <? i) && (blo <? j) then (alo, i, blo, j) :: queue
          else queue in
        let queue :=
          if (i + k <? ahi) && (j + k <? bhi)
          then (i + k, ahi, j + k, bhi) :: queue
          else queue in
        blocks_loop fuel a b queue (matching_blocks ++ [(i, j, k)])
  end.

Definition get_matching_blocks (a b : list ascii) : list block :=
  let la := Z.of_nat (length a) in
  let lb := Z.of_nat (length b) in
  blocks_loop (2 * length a + 2) a b [(0, la, 0, lb)] [].

Definition float_of_Z (z : Z) : float := PrimFloat.of_uint63 (Uint63.of_Z z).

(** [_calculate_ratio(matches, length)] *)
Definition calculate_ratio (matches len : Z) : float :=
  if len =? 0 then 1.0%float
  else (2.0 * float_of_Z matches / float_of_Z len)%float.

(** Sorting the blocks and merging adjacent ones keeps the sum of their
    sizes, which is all that [ratio] reads. *)
Definition ratio (a b : string) : float :=
  let a := Py.chars a in
  let b := Py.chars b in
  let matches := foldr Z.add 0 ((fun x : block => x.2) <$> get_matching_blocks a b) in
  calculate_ratio matches (Z.of_nat (length a) + Z.of_nat (length b)).

End Difflib.

(** ** validate_court_addresses.py *)

Module Validate.

Definition NAME_STOPWORDS : gset string :=
  list_to_set
    ["the"; "department"; "division"; "dept"; "court"; "courthouse";
     "municipal"; "probate"; "family"].

Definition ADDRESS_ABBREVIATIONS : gmap string string :=
  list_to_map
    [("street", "st"); ("road", "rd"); ("avenue", "ave");
     ("boulevard", "blvd"); ("drive", "dr"); ("court", "ct");
     ("place", "pl"); ("square", "sq"); ("lane", "ln");
     ("highway", "hwy"); ("route", "rt"); ("parkway", "pkwy");
     ("circle", "cir"); ("center", "ctr"); ("mount", "mt")].

Definition normalize_text_chars (l : list ascii) : list ascii :=
  Py.collapse_ws false
    (map Py.sub_punct_char (map Py.lower_char (Py.strip_chars l))).

Definition normalize_text (value : string) : string :=
  Py.str (normalize_text_chars (Py.chars value)).

Definition normalize_name (value : string) : string :=
  let value := normalize_text value in
  let tokens :=
    filter (fun t => t ∉ NAME_STOPWORDS) (Py.split_ws value) in
  Py.join " " tokens.

Definition normalize_address (value : string) : string :=
  let value := normalize_text value in
  let tokens :=
    map (fun token => default token (ADDRESS_ABBREVIATIONS !! token))
        (Py.split_ws value) in
  Py.join " " tokens.

Arguments normalize_text : simpl never.
Arguments normalize_name : simpl never.
Arguments normalize_address : simpl never.

Definition name_similarity (a b : string) : float := Difflib.ratio a b.

Arguments name_similarity : simpl never.

Record LocalCourt : Type := {
  source_file : string;
  name : string;
  court_code : string;
  tyler_code : string;
  phone : string;
  fax : string;
  has_po_box : bool;
  address1 : string;
  city : string;
  state : string;
  zip : string;
  county : string;
  orig_address : string
}.

Record MassGovLocation : Type := {
  title : string;
  location_id : string;
  path_alias : option string;
  addresses : list (gmap string string);
  cities : gset string
}.

Definition url (location : MassGovLocation) : string :=
  match path_alias location with
  | Some alias =>
      if Py.truthy alias then "https://www.mass.gov" ++ alias else ""
  | None => ""
  end.

Definition candidate_locations (local_city : string)
    (locations : list MassGovLocation) : list MassGovLocation :=
  let normalized_city := normalize_text local_city in
  let city_matches :=
    List.filter
      (fun loc =>
         Py.truthy normalized_city
         && bool_decide (normalized_city ∈ cities loc))
      locations in
  match city_matches with
  | [] => locations
  | _ :: _ => city_matches
  end.

(** The loop [for addr in loc.addresses] of [find_best_match], entered
    with the score so far; it yields the score and [addr_match]. *)
Fixpoint address_loop (local_addr_norm orig_address : string)
    (addrs : list (gmap string string)) (score : float) : float * bool :=
  match addrs with
  | [] => (score, false)
  | addr :: rest =>
      let addr_norm := normalize_address (Py.get addr "address_line1") in
      if Py.truthy addr_norm && String.eqb addr_norm local_addr_norm
      then ((score + 0.2)%float, true)
      else if Py.truthy orig_address && Py.truthy addr_norm
              && Py.contains addr_norm (normalize_address orig_address)
      then ((score + 0.15)%float, true)
      else address_loop local_addr_norm orig_address rest score
  end.

(** The body of the loop [for loc in locations], up to the comparison with
    the best score: the score of [loc], [addr_match] and [city_match]. *)
Definition score_location (local : LocalCourt) (loc : MassGovLocation)
  : float * bool * bool :=
  let local_name_norm := normalize_name (name local) in
  let local_addr_norm := normalize_address (address1 local) in
  let local_city_norm := normalize_text (city local) in
  let title_norm := normalize_name (title loc) in
  let score := name_similarity local_name_norm title_norm in
  let '(score, city_match) :=
    if Py.truthy local_city_norm
       && bool_decide (local_city_norm ∈ cities loc)
    then ((score + 0.1)%float, true)
    else (score, false) in
  let '(score, addr_match) :=
    if Py.truthy local_addr_norm
    then address_loop local_addr_norm (orig_address local)
           (addresses loc) score
    else (score, false) in
  (score, addr_match, city_match).

Definition match_state : Type := option MassGovLocation * float * bool * bool.

(** The loop [for loc in locations], from a given state of [best],
    [best_score], [best_addr_match] and [best_city_match]. *)
Fixpoint best_loop (local : LocalCourt) (locations : list MassGovLocation)
    (st : match_state) : match_state :=
  match locations with
  | [] => st
  | loc :: rest =>
      let '(best, best_score, best_addr_match, best_city_match) := st in
      let '(score, addr_match, city_match) := score_location local loc in
      if (best_score <? score)%float
      then best_loop local rest (Some loc, score, addr_match, city_match)
      else best_loop local rest st
  end.

Definition find_best_match (local : LocalCourt)
    (locations : list MassGovLocation) : match_state :=
  let '(best, best_score, best_addr_match, best_city_match) :=
    best_loop local locations (None, 0.0%float, false, false) in
  if (best_score <? 0.6)%float then (None, 0.0%float, false, false)
  else (best, best_score, best_addr_match, best_city_match).

Definition pick_primary_address (location : MassGovLocation)
  : gmap string string :=
  match addresses location with
  | a :: _ => a
  | [] =>
      list_to_map
        [("address_line1", ""); ("address_line2", ""); ("city", "");
         ("state", ""); ("postal_code", "")]
  end.

Definition recommend_action (local : LocalCourt)
    (match_ : option MassGovLocation) (score : float)
    (addr_match city_match : bool) : string * string * string :=
  match match_ with
  | None => ("review", "needs_manual", "No mass.gov location match")
  | Some m =>
      if addr_match
      then ("no_change", "local", "Address matches mass.gov")
      else if (0.8 <=? score)%float && city_match
              && Py.nonempty (addresses m)
      then ("update_local_from_massgov", "massgov",
            "High-confidence name/city match")
      else ("verify_web", "needs_manual",
            "Name match without address confirmation")
  end.

(** One row of the report; [massgov_match_score] holds the score that the
    source prints with two decimals, [None] where it prints nothing. *)
Record Row : Type := {
  r_source_file : string;
  r_court_name : string;
  r_court_code : string;
  r_tyler_code : string;
  r_phone : string;
  r_fax : string;
  r_has_po_box : bool;
  r_local_address1 : string;
  r_local_city : string;
  r_local_state : string;
  r_local_zip : string;
  r_local_county : string;
  r_local_orig_address : string;
  r_massgov_name : string;
  r_massgov_match_score : option float;
  r_massgov_address1 : string;
  r_massgov_address2 : string;
  r_massgov_city : string;
  r_massgov_state : string;
  r_massgov_zip : string;
  r_massgov_url : string;
  r_address_match : bool;
  r_city_match : bool;
  r_recommended_action : string;
  r_preferred_source : string;
  r_notes : string;
  r_verified_address1 : string;
  r_verified_address2 : string;
  r_verified_city : string;
  r_verified_state : string;
  r_verified_zip : string;
  r_verification_source_name : string;
  r_verification_source_url : string;
  r_verification_notes : string;
  r_secondary_address1 : string;
  r_secondary_address2 : string;
  r_secondary_city : string;
  r_secondary_state : string;
  r_secondary_zip : string;
  r_secondary_source_name : string;
  r_secondary_source_url : string;
  r_secondary_source_notes : string;
  r_secondary_source_confidence : string;
  r_final_action : string
}.

(** [f"{local.source_file}::{local.name}::{local.city}"] *)
Definition manual_key (local : LocalCourt) : string :=
  source_file local ++ "::" ++ name local ++ "::" ++ city local.

(** The first steps of the loop [for local in local_courts] of
    [write_report]: the candidates, the best match and the recommendation
    ([action], [preferred], [note]) before the manual verifications. *)
Definition match_and_recommend (locations : list MassGovLocation)
    (local : LocalCourt) : match_state * (string * string * string) :=
  let candidates := candidate_locations (city local) locations in
  let '(match_, score, addr_match, city_match) :=
    find_best_match local candidates in
  (match_, score, addr_match, city_match,
   recommend_action local match_ score addr_match city_match).

(** The highest score the loop of [find_best_match] has seen, 0.0 when
    none is above it: the value of [best_score] after the loop. *)
Definition max_score (local : LocalCourt)
    (locations : list MassGovLocation) : float :=
  fold_left
    (fun best_score loc =>
       let score := (score_location local loc).1.1 in
       if (best_score <? score)%float then score else best_score)
    locations 0.0%float.

(** The body of the loop [for local in local_courts] of [write_report]:
    the row that is written for [local]. *)
Definition report_row
    (manual_verifications : gmap string (gmap string string))
    (locations : list MassGovLocation) (local : LocalCourt) : Row :=
  let '(match_, score, addr_match, city_match, (action, preferred, note)) :=
    match_and_recommend locations local in
  let primary :=
    match match_ with
    | Some m => pick_primary_address m
    | None => ∅
    end in
  let manual := default ∅ (manual_verifications !! manual_key local) in
  let verification_notes := Py.get manual "verification_notes" in
  let preferred :=
    if Py.truthy (Py.get manual "preferred_source")
    then Py.get manual "preferred_source" else preferred in
  let action :=
    if Py.truthy (Py.get manual "final_action")
    then Py.get manual "final_action" else action in
  let note :=
    if Py.truthy verification_notes then verification_notes else note in
  {| r_source_file := source_file local;
     r_court_name := name local;
     r_court_code := court_code local;
     r_tyler_code := tyler_code local;
     r_phone := phone local;
     r_fax := fax local;
     r_has_po_box := has_po_box local;
     r_local_address1 := address1 local;
     r_local_city := city local;
     r_local_state := state local;
     r_local_zip := zip local;
     r_local_county := county local;
     r_local_orig_address := orig_address local;
     r_massgov_name :=
       match match_ with Some m => title m | None => "" end;
     r_massgov_match_score :=
       match match_ with Some _ => Some score | None => None end;
     r_massgov_address1 := Py.get primary "address_line1";
     r_massgov_address2 := Py.get primary "address_line2";
     r_massgov_city := Py.get primary "city";
     r_massgov_state := Py.get primary "state";
     r_massgov_zip := Py.get primary "postal_code";
     r_massgov_url := match match_ with Some m => url m | None => "" end;
     r_address_match := addr_match;
     r_city_match := city_match;
     r_recommended_action := action;
     r_preferred_source := preferred;
     r_notes := note;
     r_verified_address1 := Py.get manual "verified_address1";
     r_verified_address2 := Py.get manual "verified_address2";
     r_verified_city := Py.get manual "verified_city";
     r_verified_state := Py.get manual "verified_state";
     r_verified_zip := Py.get manual "verified_zip";
     r_verification_source_name := Py.get manual "verification_source_name";
     r_verification_source_url := Py.get manual "verification_source_url";
     r_verification_notes := verification_notes;
     r_secondary_address1 := Py.get manual "secondary_address1";
     r_secondary_address2 := Py.get manual "secondary_address2";
     r_secondary_city := Py.get manual "secondary_city";
     r_secondary_state := Py.get manual "secondary_state";
     r_secondary_zip := Py.get manual "secondary_zip";
     r_secondary_source_name := Py.get manual "secondary_source_name";
     r_secondary_source_url := Py.get manual "secondary_source_url";
     r_secondary_source_notes := Py.get manual "secondary_source_notes";
     r_secondary_source_confidence :=
       Py.get manual "secondary_source_confidence";
     r_final_action := Py.get manual "final_action" |}.

(** The rows [write_report] writes, in order. *)
Definition write_report
    (manual_verifications : gmap string (gmap string string))
    (local_courts : list LocalCourt) (locations : list MassGovLocation)
  : list Row :=
  map (report_row manual_verifications locations) local_courts.

(** *** The locations built by [fetch_massgov_locations] *)

(** The key that tells two addresses of a location apart. *)
Definition address_key (addr : gmap string string)
  : string * string * string * string :=
  (Py.get addr "address_line1", Py.get addr "address_line2",
   Py.get addr "city", Py.get addr "postal_code").

(** The identifiers the two nested loops [for contact_id in contact_ids]
    and [for addr_id in contact_to_addresses.get(contact_id, [])] visit, in
    order. *)
Definition address_ids (contact_ids : list string)
    (contact_to_addresses : gmap string (list string)) : list string :=
  concat ((fun contact_id => default [] (contact_to_addresses !! contact_id))
            <$> contact_ids).

(** The body of the inner loop, from given [seen] and [addresses]. *)
Fixpoint collect_loop (address_by_id : gmap string (gmap string string))
    (addr_ids : list string) (seen : gset (string * string * string * string))
    (addresses : list (gmap string string)) : list (gmap string string) :=
  match addr_ids with
  | [] => addresses
  | addr_id :: rest =>
      match address_by_id !! addr_id with
      | None => collect_loop address_by_id rest seen addresses
      | Some addr =>
          if bool_decide (addr = ∅)
          then collect_loop address_by_id rest seen addresses
          else if bool_decide (address_key addr ∈ seen)
          then collect_loop address_by_id rest seen addresses
          else collect_loop address_by_id rest ({[address_key addr]} ∪ seen)
                 (addresses ++ [addr])
      end
  end.

Definition collect_addresses (contact_ids : list string)
    (contact_to_addresses : gmap string (list string))
    (address_by_id : gmap string (gmap string string))
  : list (gmap string string) :=
  collect_loop address_by_id (address_ids contact_ids contact_to_addresses)
    ∅ [].

(** [{normalize_text(a.get("city", "")) for a in addresses if a.get("city")}] *)
Definition location_cities (addresses : list (gmap string string))
  : gset string :=
  list_to_set
    ((fun a => normalize_text (Py.get a "city"))
       <$> List.filter (fun a => Py.truthy (Py.get a "city")) addresses).

(** The location appended for one node of the payload. *)
Definition build_location (title loc_id : string) (path_alias : option string)
    (contact_ids : list string)
    (contact_to_addresses : gmap string (list string))
    (address_by_id : gmap string (gmap string string)) : MassGovLocation :=
  let addresses :=
    collect_addresses contact_ids contact_to_addresses address_by_id in
  {| title := title;
     location_id := loc_id;
     path_alias := path_alias;
     addresses := addresses;
     cities := location_cities addresses |}.

End Validate.

(** ** apply_verified_address_updates.py *)

Module Apply.

Record ParsedAddress : Type := {
  building : string;
  address_line1 : string;
  unit : string
}.

Definition set_building (v : string) (p : ParsedAddress) : ParsedAddress :=
  {| building := v; address_line1 := address_line1 p; unit := unit p |}.
Definition set_address_line1 (v : string) (p : ParsedAddress)
  : ParsedAddress :=
  {| building := building p; address_line1 := v; unit := unit p |}.
Definition set_unit (v : string) (p : ParsedAddress) : ParsedAddress :=
  {| building := building p; address_line1 := address_line1 p; unit := v |}.

(** The same function as in the other script. *)
Definition normalize_text (value : string) : string :=
  Py.str
    (Py.collapse_ws false
       (map Py.sub_punct_char
          (map Py.lower_char (Py.strip_chars (Py.chars value))))).

(** [[part.strip() for part in address1.split(",") if part.strip()]] *)
Definition comma_parts (address1 : string) : list string :=
  map Py.strip
    (List.filter (fun part => Py.truthy (Py.strip part))
       (Py.split_on "," address1)).

(** [parts[i]], read only where the source has checked the length. *)
Definition part (parts : list string) (i : nat) : string :=
  default "" (parts !! i).

Definition parse_verified_address (address1 existing_unit : string)
  : ParsedAddress :=
  let parts := comma_parts address1 in
  let n := Z.of_nat (length parts) in
  let parsed :=
    {| building := ""; address_line1 := ""; unit := existing_unit |} in
  if negb (Py.nonempty parts) then parsed
  else if n =? 1 then set_address_line1 (part parts 0) parsed
  else if Py.contains "courthouse" (Py.lower (part parts 0)) && (2 <=? n)
  then
    let parsed := set_building (part parts 0) parsed in
    let parsed := set_address_line1 (part parts 1) parsed in
    if 3 <=? n then set_unit (part parts 2) parsed else parsed
  else
    let parsed := set_address_line1 (part parts 0) parsed in
    let parsed := if 2 <=? n then set_unit (part parts 1) parsed else parsed in
    if 2 <? n then set_unit (Py.join ", " (drop 1 parts)) parsed
    else parsed.

Definition build_orig_address
    (building address_line1 unit address2 city state zip_code : string)
  : string :=
  let parts :=
    List.filter Py.truthy [building; address_line1; unit; address2] in
  let line := Py.join ", " parts in
  let city_state := Py.join ", " (List.filter Py.truthy [city; state]) in
  let city_state :=
    if Py.truthy zip_code
    then if Py.truthy city_state then city_state ++ " " ++ zip_code
         else zip_code
    else city_state in
  if Py.truthy city_state
  then if Py.truthy line then line ++ ", " ++ city_state else city_state
  else line.

(** An entry of a local source file: the keys that [main] reads or
    writes, the geographic location apart. *)
Record Entry : Type := {
  name : string;
  address : option (gmap string string);
  has_po_box : option bool
}.

(** [entry.get("address", {})] *)
Definition entry_address (e : Entry) : gmap string string :=
  default ∅ (address e).

(** What [main] does to [addr], from reading [verified_address1] to the
    new [orig_address]. *)
Definition merge_address (addr info : gmap string string)
  : gmap string string :=
  let verified_address1 := Py.get info "verified_address1" in
  let verified_address2 := Py.get info "verified_address2" in
  let verified_city := Py.get info "verified_city" in
  let verified_state := Py.get info "verified_state" in
  let verified_zip := Py.get info "verified_zip" in
  let parsed := parse_verified_address verified_address1 (Py.get addr "unit") in
  let addr :=
    if Py.truthy (address_line1 parsed)
    then <["address" := address_line1 parsed]> addr else addr in
  let addr :=
    if Py.truthy (unit parsed) then <["unit" := unit parsed]> addr
    else delete "unit" addr in
  let addr := <["city" := Py.or_else verified_city (Py.get addr "city")]> addr in
  let addr := <["state" := Py.or_else verified_state (Py.get addr "state")]> addr in
  let addr := <["zip" := Py.or_else verified_zip (Py.get addr "zip")]> addr in
  <["orig_address" :=
      build_orig_address (building parsed) (Py.get addr "address")
        (Py.get addr "unit") verified_address2 (Py.get addr "city")
        (Py.get addr "state") (Py.get addr "zip")]> addr.

(** The update of the entry that [main] has found. *)
Definition update_entry (entry : Entry) (info : gmap string string)
  : Entry :=
  let addr := entry_address entry in
  let verified_address2 := Py.get info "verified_address2" in
  {| name := name entry;
     address := Some (merge_address addr info);
     has_po_box :=
       Some (Py.truthy verified_address2 || default false (has_po_box entry)) |}.

Inductive error : Type :=
| NoEntryFound
| MultipleEntriesFound.

Definition entry_matches (court_name court_city : string) (e : Entry)
  : bool :=
  String.eqb (name e) court_name
  && String.eqb (Py.lower (Py.get (entry_address e) "city"))
       (Py.lower court_city).

(** One round of the loop of [main] on the entries of the source file the
    key names: the entries afterwards, or the [RuntimeError]. *)
Definition apply_verification (data : list Entry)
    (court_name court_city : string) (info : gmap string string)
  : error + list Entry :=
  if negb (String.eqb (Py.get info "final_action") "update_local_from_verified")
  then inr data
  else
    match List.filter (entry_matches court_name court_city) data with
    | [] => inl NoEntryFound
    | [_] =>
        inr (map (fun e =>
                    if entry_matches court_name court_city e
                    then update_entry e info else e) data)
    | _ :: _ :: _ => inl MultipleEntriesFound
    end.

(** [key.split("::", 2)] on the characters: the pieces between the first
    [maxsplit] occurrences of "::", found from the left. *)
Fixpoint split_colons (maxsplit : nat) (acc : list ascii) (l : list ascii)
    {struct l} : list (list ascii) :=
  match maxsplit with
  | O => [(rev acc ++ l)%list]
  | S m =>
      match l with
      | [] => [rev acc]
      | c :: r =>
          match r with
          | c' :: r' =>
              if Ascii.eqb c ":" && Ascii.eqb c' ":"
              then rev acc :: split_colons m [] r'
              else split_colons maxsplit (c :: acc) r
          | [] => split_colons maxsplit (c :: acc) r
          end
      end
  end.

Definition split_key (key : string) : list string :=
  map Py.str (split_colons 2 [] (Py.chars key)).

Inductive main_error : Type :=
| KeyNotThreeParts
| SourceFileNotFound
| EntryError (e : error).

(** One round of the loop of [main]: [disk] holds the entries of the source
    files, [files_cache] the files read so far with the updates made. *)
Definition main_round (disk files_cache : gmap string (list Entry))
    (key : string) (info : gmap string string)
  : main_error + gmap string (list Entry) :=
  if negb (String.eqb (Py.get info "final_action") "update_local_from_verified")
  then inr files_cache
  else
    match split_key key with
    | [source_file; court_name; court_city] =>
        let loaded :=
          match files_cache !! source_file with
          | Some data => Some data
          | None => disk !! source_file
          end in
        match loaded with
        | None => inl SourceFileNotFound
        | Some data =>
            match apply_verification data court_name court_city info with
            | inl e => inl (EntryError e)
            | inr data' => inr (<[source_file := data']> files_cache)
            end
        end
    | _ => inl KeyNotThreeParts
    end.

(** The loop [for key, info in manual.items()], in the order of the
    verification file; the result holds the files that [main] writes. *)
Fixpoint main_loop (disk : gmap string (list Entry))
    (manual : list (string * gmap string string))
    (files_cache : gmap string (list Entry))
  : main_error + gmap string (list Entry) :=
  match manual with
  | [] => inr files_cache
  | (key, info) :: rest =>
      match main_round disk files_cache key info with
      | inl e => inl e
      | inr files_cache => main_loop disk rest files_cache
      end
  end.

Definition main (disk : gmap string (list Entry))
    (manual : list (string * gmap string string))
  : main_error + gmap string (list Entry) :=
  main_loop disk manual ∅.

End Apply.

(** ** The statements of the specification that are compared with the code *)

Module Spec.

Import Validate.

Inductive address_hit : Type :=
| ExactLine1
| SubstringOfDisplay.

(** The address bonus in the words of the specification: the first
    address of the candidate that satisfies a branch decides, equality of
    the normalised first lines first, else the normalised candidate line
    as a non-empty substring of the normalised display string. *)
Fixpoint first_address_hit (local : LocalCourt)
    (addrs : list (gmap string string)) : option address_hit :=
  match addrs with
  | [] => None
  | addr :: rest =>
      let cand := normalize_address (Py.get addr "address_line1") in
      if String.eqb cand (normalize_address (address1 local))
      then Some ExactLine1
      else if Py.truthy cand
              && Py.contains cand (normalize_address (orig_address local))
      then Some SubstringOfDisplay
      else first_address_hit local rest
  end.

Definition city_agrees (local : LocalCourt) (loc : MassGovLocation) : bool :=
  Py.truthy (normalize_text (city local))
  && bool_decide (normalize_text (city local) ∈ cities loc).

Definition with_city_bonus (local : LocalCourt) (loc : MassGovLocation)
  : float :=
  let base :=
    name_similarity (normalize_name (name local))
      (normalize_name (title loc)) in
  if city_agrees local loc then (base + 0.1)%float else base.

Definition with_address_bonus (score : float) (hit : option address_hit)
  : float :=
  match hit with
  | Some ExactLine1 => (score + 0.2)%float
  | Some SubstringOfDisplay => (score + 0.15)%float
  | None => score
  end.

(** The score of section 4.5 of the specification, with the two flags. *)
Definition score (local : LocalCourt) (loc : MassGovLocation)
  : float * bool * bool :=
  let hit := first_address_hit local (addresses loc) in
  (with_address_bonus (with_city_bonus local loc) hit,
   bool_decide (is_Some hit), city_agrees local loc).

End Spec.

(** ** Notions used in the proofs *)

Module NormalForm.

(** A character that [normalize_text] leaves as it is. *)
Definition clean (c : ascii) : Prop :=
  Py.lower_char c = c ∧ Py.sub_punct_char c = c
  ∧ (Py.is_space c = true → c = " "%char).

(** The characters are clean and no two spaces are adjacent; with [in_run]
    the list does not start with a space either. *)
Fixpoint spaced (in_run : bool) (l : list ascii) : Prop :=
  match l with
  | [] => True
  | c :: r =>
      clean c
      ∧ (if Py.is_space c then in_run = false ∧ spaced true r
         else spaced false r)
  end.

(** Stripping at the right end, by recursion on the list. *)
Fixpoint rstrip_chars (l : list ascii) : list ascii :=
  match l with
  | [] => []
  | c :: r =>
      match rstrip_chars r with
      | [] => if Py.is_space c then [] else [c]
      | r' => c :: r'
      end
  end.

End NormalForm.

Module Termination.

Import Difflib.

(** A block lies between [alo] and [ahi] in [a]. *)
Definition block_within (alo ahi : Z) (bl : block) : Prop :=
  alo <= bl.1.1 ∧ 0 <= bl.2 ∧ bl.1.1 + bl.2 <= ahi.

(** The run lengths recorded for the characters before index [i]. *)
Definition runs_within (alo i : Z) (j2len : gmap Z Z) : Prop :=
  ∀ j v, j2len !! j = Some v → 1 <= v <= i - alo.

Definition window_ok (w : window) : Prop := w.1.1.1 <= w.1.1.2.

(** The rounds of [blocks_loop] a window can still cause. *)
Definition window_weight (w : window) : nat :=
  2 * Z.to_nat (w.1.1.2 - w.1.1.1) + 1.

Definition queue_weight (queue : list window) : nat :=
  foldr (fun w n => (window_weight w + n)%nat) 0%nat queue.

End Termination.

Module Tokens.

(** A token of [str.split]: not empty and without white space. *)
Definition word (l : list ascii) : Prop :=
  l ≠ [] ∧ Forall (fun c => Py.is_space c = false) l.

(** [sep.join(parts)] on the characters. *)
Fixpoint join_chars (sep : list ascii) (parts : list (list ascii))
  : list ascii :=
  match parts with
  | [] => []
  | [p] => p
  | p :: rest => (p ++ sep ++ join_chars sep rest)%list
  end.

(** A token as [normalize_text] leaves them. *)
Definition good_token (t : string) : Prop :=
  word (Py.chars t) ∧ Forall NormalForm.clean (Py.chars t).

(** A part that [comma_parts] gives back as it is: not empty, without a
    comma, and without white space at either end. *)
Definition plain_part (l : list ascii) : Prop :=
  Forall (fun c => c ≠ ","%char) l
  ∧ (∃ c r, l = c :: r ∧ Py.is_space c = false)
  ∧ (∃ r c, l = (r ++ [c])%list ∧ Py.is_space c = false).

End Tokens.

(** ** Sample records *)

Module Samples.

Import Validate.

Definition local_court (address1 orig_address : string) : LocalCourt :=
  {| source_file := "district_courts.json";
     name := "Worcester District Court";
     court_code := ""; tyler_code := ""; phone := ""; fax := "";
     has_po_box := false;
     address1 := address1;
     city := "Worcester"; state := "MA"; zip := "01608";
     county := "Worcester County";
     orig_address := orig_address |}.

Definition location (title : string) (lines : list string)
    (cities : list string) : MassGovLocation :=
  {| title := title;
     location_id := "";
     path_alias := None;
     addresses := (fun line1 => {[ "address_line1" := line1 ]}) <$> lines;
     cities := list_to_set cities |}.

Definition worcester_street : LocalCourt :=
  local_court "225 Main Street" "225 Main Street, Worcester, MA 01608".

Definition worcester_no_line1 : LocalCourt :=
  local_court "" "225 Main Street, Worcester, MA 01608".

Definition worcester_district : MassGovLocation :=
  location "Worcester District Court" ["225 Main St"] ["worcester"].

Definition boston_municipal : MassGovLocation :=
  location "Boston Municipal Court" ["24 New Chardon St"] ["boston"].

Definition court_plaza : MassGovLocation :=
  location "Worcester District Court" ["1 Court Plaza"] ["worcester"].

Definition boston_housing : MassGovLocation :=
  location "Boston Housing Court" ["24 New Chardon St"] ["worcester"; "boston"].

Definition only_final_action : gmap string string :=
  {[ "final_action" := "update_local_from_verified" ]}.

Definition full_verification : gmap string string :=
  list_to_map
    [("final_action", "update_local_from_verified");
     ("preferred_source", "verified");
     ("verification_notes", "Confirmed by the clerk's office");
     ("verified_address1", "Worcester Trial Courthouse, 225 Main St");
     ("verified_city", "Worcester")].

Definition worcester_address : gmap string string :=
  list_to_map
    [("address", "225 Main St"); ("unit", "Room 4"); ("city", "Worcester");
     ("state", "MA"); ("zip", "01608"); ("county", "Worcester County")].

Definition no_verified_address : gmap string string :=
  list_to_map
    [("final_action", "update_local_from_verified");
     ("verified_address1", " , "); ("verified_city", "")].

Definition main_street : gmap string string :=
  list_to_map [("address_line1", "225 Main St"); ("city", "Worcester")].

Definition contact_addresses : gmap string (list string) :=
  {[ "contact" := ["first"; "missing"; "second"] ]}.

Definition address_table : gmap string (gmap string string) :=
  list_to_map [("first", main_street); ("second", main_street)].

Definition fetched_location : Validate.MassGovLocation :=
  Validate.build_location "Worcester District Court" "node" None
    ["contact"] contact_addresses address_table.

Definition only_manual_note : gmap string string :=
  {[ "verification_notes" := "Not checked yet" ]}.

Definition worcester_entry : Apply.Entry :=
  {| Apply.name := "Worcester District Court";
     Apply.address := Some worcester_address;
     Apply.has_po_box := Some false |}.

End Samples.

(** Lookups of keys that an insertion or a removal leaves alone. *)
Ltac skip_other_keys :=
  repeat first
    [ rewrite lookup_insert_ne by congruence
    | rewrite lookup_delete_ne by congruence ].

(** One line of a decision table whose action is a known string. *)
Ltac table_line :=
  first
    [ let H := fresh in
      intros H; first
        [ discriminate H
        | destruct H as [H | H]; discriminate H
        | destruct H as [[? H] H']; first [discriminate H|discriminate H']
        | destruct H as (? & H1 & H2 & H3 & H4 & H5);
          first [ discriminate H1 | discriminate H2 | discriminate H3
                | discriminate H4 | exfalso; apply H5; reflexivity ] ]
    | reflexivity
    | left; reflexivity
    | right; reflexivity
    | right; left; reflexivity
    | right; right; left; reflexivity
    | right; right; right; reflexivity
    | split; [eexists; reflexivity|reflexivity]
    | eexists; repeat split; first [reflexivity|discriminate] ].

(** * Properties *)

(** ** Strings *)

Section PyFacts.

Lemma chars_str (l : list ascii) : Py.chars (Py.str l) = l.
Proof. apply list_ascii_of_string_of_list_ascii. Qed.

Lemma str_chars (s : string) : Py.str (Py.chars s) = s.
Proof. apply string_of_list_ascii_of_string. Qed.

Lemma truthy_true (s : string) : Py.truthy s = true ↔ s ≠ "".
Proof. destruct s; simpl; split; congruence. Qed.

Lemma truthy_false (s : string) : Py.truthy s = false ↔ s = "".
Proof. destruct s; simpl; split; congruence. Qed.

Lemma is_prefix_nil (p : list ascii) : Py.is_prefix p [] = true → p = [].
Proof. destruct p; simpl; congruence. Qed.

Lemma contains_empty (needle : string) :
  Py.contains needle "" = true → needle = "".
Proof.
  unfold Py.contains. simpl. rewrite orb_false_r. intros H.
  apply is_prefix_nil in H.
  rewrite <- (str_chars needle). unfold Py.chars in *. now rewrite H.
Qed.

End PyFacts.

(** ** The matcher: the fuel of [get_matching_blocks] is enough *)

Section Matcher.

Import Difflib Termination.

Lemma block_within_mono (alo ahi ahi' : Z) (bl : block) :
  ahi <= ahi' → block_within alo ahi bl → block_within alo ahi' bl.
Proof. unfold block_within. lia. Qed.

Lemma scan_j_within (js : list Z) (i alo blo bhi : Z)
    (j2len newj2len : gmap Z Z) (best : block) :
  alo <= i →
  runs_within alo i j2len →
  runs_within alo (i + 1) newj2len →
  block_within alo (i + 1) best →
  runs_within alo (i + 1) (scan_j js i blo bhi j2len newj2len best).1
  ∧ block_within alo (i + 1) (scan_j js i blo bhi j2len newj2len best).2.
Proof.
  intros Hi Hold. revert newj2len best.
  induction js as [|j rest IH]; intros newj2len best Hnew Hbest;
    cbn [scan_j]; [done|].
  destruct (j <? blo); [by apply IH|].
  destruct (bhi <=? j); [done|].
  assert (1 <= default 0 (j2len !! (j - 1)) + 1 <= i + 1 - alo) as Hk.
  { destruct (j2len !! (j - 1)) as [v|] eqn:E; cbn [default from_option id]; [|lia].
    specialize (Hold _ _ E). lia. }
  apply IH.
  - intros j' v. rewrite lookup_insert. destruct (decide (j = j')).
    + intros [= <-]. exact Hk.
    + apply Hnew.
  - destruct (best.2 <? _); [|done]. unfold block_within. cbn [fst snd]. lia.
Qed.

Lemma scan_i_within (ai b : list ascii) (i alo blo bhi : Z)
    (j2len : gmap Z Z) (best : block) :
  alo <= i →
  runs_within alo i j2len →
  block_within alo i best →
  block_within alo (i + Z.of_nat (length ai))
    (scan_i ai b i blo bhi j2len best).
Proof.
  revert i j2len best.
  induction ai as [|c rest IH]; intros i j2len best Hi Hruns Hbest.
  - cbn [scan_i length]. eapply block_within_mono; [|done]. lia.
  - cbn [scan_i].
    destruct (scan_j_within (b2j b c) i alo blo bhi j2len ∅ best Hi Hruns)
      as [Hruns' Hbest'].
    { intros j v. by rewrite lookup_empty. }
    { eapply block_within_mono; [|done]. lia. }
    destruct (scan_j _ _ _ _ _ _ _) as [newj2len best'].
    replace (i + Z.of_nat (length (c :: rest)))
      with (i + 1 + Z.of_nat (length rest)) by (cbn [length]; lia).
    apply IH; [lia|done|done].
Qed.

Lemma extend_left_within (fuel : nat) (a b : list ascii)
    (alo ahi blo : Z) (best : block) :
  block_within alo ahi best →
  block_within alo ahi (extend_left fuel a b alo blo best).
Proof.
  revert best. induction fuel as [|fuel IH]; intros best Hbest;
    cbn [extend_left]; [done|].
  destruct best as [[besti bestj] bestsize].
  destruct (alo <? besti) eqn:E; cbn [andb]; [|done].
  destruct ((blo <? bestj) && _); [|done].
  apply IH. apply Z.ltb_lt in E. unfold block_within in *.
  cbn [fst snd] in *. lia.
Qed.

Lemma extend_right_within (fuel : nat) (a b : list ascii)
    (alo ahi bhi : Z) (best : block) :
  block_within alo ahi best →
  block_within alo ahi (extend_right fuel a b ahi bhi best).
Proof.
  revert best. induction fuel as [|fuel IH]; intros best Hbest;
    cbn [extend_right]; [done|].
  destruct best as [[besti bestj] bestsize].
  destruct (besti + bestsize <? ahi) eqn:E; cbn [andb]; [|done].
  destruct ((bestj + bestsize <? bhi) && _); [|done].
  apply IH. apply Z.ltb_lt in E. unfold block_within in *.
  cbn [fst snd] in *. lia.
Qed.

Lemma find_longest_match_within (a b : list ascii) (alo ahi blo bhi : Z) :
  alo <= ahi →
  block_within alo ahi (find_longest_match a b alo ahi blo bhi).
Proof.
  intros Hw. unfold find_longest_match.
  apply extend_right_within, extend_left_within.
  eapply block_within_mono;
    [|apply scan_i_within;
      [lia|intros j v; by rewrite lookup_empty
      |unfold block_within; cbn [fst snd]; lia]].
  rewrite length_take. lia.
Qed.

Lemma queue_weight_zero (queue : list window) :
  queue_weight queue = 0%nat → queue = [].
Proof.
  destruct queue as [|w queue]; [done|].
  cbn [queue_weight foldr]. unfold window_weight. lia.
Qed.

Lemma blocks_loop_done (fuel : nat) (a b : list ascii)
    (matching_blocks : list block) :
  blocks_loop fuel a b [] matching_blocks = matching_blocks.
Proof. by destruct fuel. Qed.

(** With fuel for the weight of the queue the loop ends on an empty queue:
    more fuel gives the same blocks. *)
Lemma blocks_loop_enough (fuel fuel' : nat) (a b : list ascii)
    (queue : list window) (matching_blocks : list block) :
  Forall window_ok queue →
  (queue_weight queue <= fuel)%nat →
  (queue_weight queue <= fuel')%nat →
  blocks_loop fuel a b queue matching_blocks
  = blocks_loop fuel' a b queue matching_blocks.
Proof.
  revert fuel' queue matching_blocks.
  induction fuel as [|fuel IH]; intros fuel' queue acc Hok Hf Hf'.
  - rewrite (queue_weight_zero queue) by lia.
    by rewrite !blocks_loop_done.
  - destruct queue as [|[[[alo ahi] blo] bhi] queue];
      [by rewrite !blocks_loop_done|].
    apply Forall_cons in Hok as [Hw Hok]. unfold window_ok in Hw.
    cbn [queue_weight foldr] in Hf, Hf'. fold (queue_weight queue) in Hf, Hf'.
    unfold window_weight in Hf, Hf'. cbn [fst snd] in Hw, Hf, Hf'.
    destruct fuel' as [|fuel']; [lia|]. cbn [blocks_loop].
    pose proof (find_longest_match_within a b alo ahi blo bhi Hw) as Hin.
    destruct (find_longest_match a b alo ahi blo bhi) as [[i j] k].
    unfold block_within in Hin. cbn [fst snd] in Hin.
    destruct (k =? 0) eqn:Ek; [apply IH; [done|lia|lia]|].
    apply Z.eqb_neq in Ek.
    destruct (alo <? i) eqn:E1; cbn [andb];
      [destruct (blo <? j)|];
      (destruct (i + k <? ahi) eqn:E2; cbn [andb];
       [destruct (j + k <? bhi)|]);
      apply IH;
      rewrite ?Z.ltb_lt in *;
      repeat (apply Forall_cons; split; [unfold window_ok; cbn [fst snd]; lia|]);
      try done;
      cbn [queue_weight foldr]; fold (queue_weight queue);
      unfold window_weight; cbn [fst snd]; lia.
Qed.

Lemma get_matching_blocks_enough (fuel : nat) (a b : list ascii) :
  (2 * length a + 2 <= fuel)%nat →
  blocks_loop fuel a b
    [(0, Z.of_nat (length a), 0, Z.of_nat (length b))] []
  = get_matching_blocks a b.
Proof.
  intros Hfuel. unfold get_matching_blocks. apply blocks_loop_enough.
  - apply Forall_cons. split; [|done]. unfold window_ok. cbn [fst snd]. lia.
  - cbn [queue_weight foldr]. unfold window_weight. cbn [fst snd]. lia.
  - cbn [queue_weight foldr]. unfold window_weight. cbn [fst snd]. lia.
Qed.

End Matcher.

(** ** [normalize_text] *)

Section NormalizeText.

Import NormalForm.

Lemma clean_space : clean " ".
Proof. repeat split. Qed.

Lemma clean_sub_lower (c : ascii) :
  Py.is_space (Py.sub_punct_char (Py.lower_char c)) = false →
  clean (Py.sub_punct_char (Py.lower_char c)).
Proof.
  destruct c as [[] [] [] [] [] [] [] []]; vm_compute; intros H;
    repeat split; congruence.
Qed.

Lemma spaced_weaken (b : bool) (l : list ascii) : spaced b l → spaced false l.
Proof.
  destruct l as [|c r]; simpl; [done|].
  intros [Hc H]. split; [done|].
  destruct (Py.is_space c); [|done]. destruct H. done.
Qed.

Lemma spaced_Forall (b : bool) (l : list ascii) : spaced b l → Forall clean l.
Proof.
  revert b. induction l as [|c r IH]; intros b; simpl; [constructor|].
  intros [Hc H]. constructor; [done|].
  destruct (Py.is_space c); [destruct H|]; eauto.
Qed.

Lemma spaced_collapse (b : bool) (l : list ascii) :
  Forall (fun c => Py.is_space c = false → clean c) l →
  spaced b (Py.collapse_ws b l).
Proof.
  intros Hl. revert b. induction Hl as [|c r Hc _ IH]; intros b; simpl; [done|].
  destruct (Py.is_space c) eqn:Ec.
  - destruct b; [apply IH|].
    simpl. split; [apply clean_space|]. split; [done|apply IH].
  - simpl. rewrite Ec. split; [auto|apply IH].
Qed.

Lemma collapse_spaced (b : bool) (l : list ascii) :
  spaced b l → Py.collapse_ws b l = l.
Proof.
  revert b. induction l as [|c r IH]; intros b; simpl; [done|].
  intros [(_ & _ & Hsp) H]. destruct (Py.is_space c) eqn:Ec.
  - destruct H as [-> H]. rewrite (Hsp eq_refl). f_equal. by apply IH.
  - f_equal. by apply IH.
Qed.

Lemma map_lower_clean (l : list ascii) :
  Forall clean l → map Py.lower_char l = l.
Proof.
  induction 1 as [|c r (Hc & _ & _) _ IH]; simpl; [done|]. by rewrite Hc, IH.
Qed.

Lemma map_sub_clean (l : list ascii) :
  Forall clean l → map Py.sub_punct_char l = l.
Proof.
  induction 1 as [|c r (_ & Hc & _) _ IH]; simpl; [done|]. by rewrite Hc, IH.
Qed.

Lemma lstrip_spaced (b : bool) (l : list ascii) :
  spaced b l → spaced false (Py.lstrip_chars l).
Proof.
  revert b. induction l as [|c r IH]; intros b; simpl; [done|].
  intros [Hc H]. destruct (Py.is_space c) eqn:Ec.
  - destruct H as [_ H]. by apply (IH true).
  - simpl. rewrite Ec. done.
Qed.

Lemma lstrip_snoc (l : list ascii) (c : ascii) :
  Py.lstrip_chars (l ++ [c])%list =
  match Py.lstrip_chars l with
  | [] => if Py.is_space c then [] else [c]
  | l' => (l' ++ [c])%list
  end.
Proof.
  induction l as [|x r IH]; simpl.
  - by destruct (Py.is_space c).
  - destruct (Py.is_space x); [apply IH|done].
Qed.

Lemma rstrip_chars_rev (l : list ascii) :
  rev (Py.lstrip_chars (rev l)) = rstrip_chars l.
Proof.
  induction l as [|c r IH]; simpl; [done|].
  rewrite lstrip_snoc, <- IH.
  destruct (Py.lstrip_chars (rev r)) as [|y l'] eqn:E; simpl.
  - by destruct (Py.is_space c).
  - rewrite rev_app_distr. simpl.
    destruct (rev l' ++ [y])%list eqn:E'; [|done].
    by destruct (rev l').
Qed.

Lemma rstrip_spaced (b : bool) (l : list ascii) :
  spaced b l → spaced b (rstrip_chars l).
Proof.
  revert b. induction l as [|c r IH]; intros b; simpl; [done|].
  intros [Hc H]. destruct (rstrip_chars r) as [|y r'] eqn:E.
  - destruct (Py.is_space c) eqn:Ec; simpl; [done|]. by rewrite Ec.
  - simpl. split; [done|].
    destruct (Py.is_space c).
    + destruct H as [-> H]. split; [done|]. apply (IH true H).
    + apply (IH false H).
Qed.

Lemma strip_spaced (l : list ascii) :
  spaced false l → spaced false (Py.strip_chars l).
Proof.
  intros H. unfold Py.strip_chars. rewrite rstrip_chars_rev.
  apply rstrip_spaced. by apply (lstrip_spaced false).
Qed.

Lemma normalize_text_chars_spaced (l : list ascii) :
  spaced false (Validate.normalize_text_chars l).
Proof.
  unfold Validate.normalize_text_chars. apply spaced_collapse.
  rewrite map_map. apply Forall_map, Forall_forall.
  intros c _. apply clean_sub_lower.
Qed.

Lemma normalize_text_chars_of_spaced (l : list ascii) :
  spaced false l → Validate.normalize_text_chars l = Py.strip_chars l.
Proof.
  intros H. apply strip_spaced in H. unfold Validate.normalize_text_chars.
  rewrite (map_lower_clean _ (spaced_Forall _ _ H)).
  rewrite (map_sub_clean _ (spaced_Forall _ _ H)).
  by apply collapse_spaced.
Qed.

Lemma normalize_text_same (s : string) :
  Apply.normalize_text s = Validate.normalize_text s.
Proof. reflexivity. Qed.

Lemma normalize_text_again (s : string) :
  Validate.normalize_text (Validate.normalize_text s)
  = Py.strip (Validate.normalize_text s).
Proof.
  unfold Validate.normalize_text, Py.strip. rewrite chars_str. f_equal.
  apply normalize_text_chars_of_spaced, normalize_text_chars_spaced.
Qed.

Lemma lstrip_head (l : list ascii) :
  match Py.lstrip_chars l with
  | c :: _ => Py.is_space c = false
  | [] => True
  end.
Proof.
  induction l as [|c r IH]; simpl; [done|].
  destruct (Py.is_space c) eqn:Ec; done.
Qed.

Lemma lstrip_fixed (c : ascii) (r : list ascii) :
  Py.is_space c = false → Py.lstrip_chars (c :: r) = c :: r.
Proof. intros H. simpl. by rewrite H. Qed.

Lemma rstrip_idem (l : list ascii) :
  rstrip_chars (rstrip_chars l) = rstrip_chars l.
Proof.
  induction l as [|c r IH]; simpl; [done|].
  destruct (rstrip_chars r) as [|y r'] eqn:E.
  - destruct (Py.is_space c) eqn:Ec; simpl; [done|]. by rewrite Ec.
  - change (rstrip_chars (c :: y :: r')) with
      (match rstrip_chars (y :: r') with
       | [] => if Py.is_space c then [] else [c]
       | x :: r'' => c :: x :: r''
       end).
    by rewrite IH.
Qed.

Lemma rstrip_keeps_head (c : ascii) (r : list ascii) :
  Py.is_space c = false → ∃ r', rstrip_chars (c :: r) = c :: r'.
Proof.
  intros H. simpl. destruct (rstrip_chars r); rewrite ?H; eauto.
Qed.

Lemma strip_chars_idem (l : list ascii) :
  Py.strip_chars (Py.strip_chars l) = Py.strip_chars l.
Proof.
  unfold Py.strip_chars. rewrite !rstrip_chars_rev.
  pose proof (lstrip_head l) as Hh.
  destruct (Py.lstrip_chars l) as [|c r] eqn:E; [done|].
  destruct (rstrip_keeps_head c r Hh) as [r' Hr'].
  rewrite Hr', (lstrip_fixed c r' Hh), <- Hr'. apply rstrip_idem.
Qed.

Lemma normalize_text_settles (s : string) :
  Validate.normalize_text
    (Validate.normalize_text (Validate.normalize_text s))
  = Validate.normalize_text (Validate.normalize_text s).
Proof.
  rewrite (normalize_text_again (Validate.normalize_text s)).
  rewrite !normalize_text_again.
  unfold Py.strip. rewrite chars_str. f_equal. apply strip_chars_idem.
Qed.

(** C4 (as the specification states it): [normalize_text] is idempotent.
    It is not: on "a." the full stop is turned into a space after the
    string has been stripped, so the result "a " ends in a space, which a
    second application removes. *)
Lemma normalize_text_not_idempotent :
  Validate.normalize_text (Validate.normalize_text "a.")
  ≠ Validate.normalize_text "a."
  ∧ Apply.normalize_text (Apply.normalize_text "a.")
    ≠ Apply.normalize_text "a.".
Proof. split; vm_compute; discriminate. Qed.

(** C4 (amended): for every string [s], applying [normalize_text] again
    strips the result, [normalize_text (normalize_text s) = strip
    (normalize_text s)]; so [normalize_text] is idempotent on every [s] whose
    image has no space at either end, and a third application changes
    nothing.  The same holds for the copy in the other script. *)
Theorem normalize_text_twice_strips (s : string) :
  Validate.normalize_text (Validate.normalize_text s)
  = Py.strip (Validate.normalize_text s)
  ∧ Apply.normalize_text (Apply.normalize_text s)
    = Py.strip (Apply.normalize_text s)
  ∧ (Py.strip (Validate.normalize_text s) = Validate.normalize_text s →
     Validate.normalize_text (Validate.normalize_text s)
     = Validate.normalize_text s)
  ∧ Validate.normalize_text
      (Validate.normalize_text (Validate.normalize_text s))
    = Validate.normalize_text (Validate.normalize_text s).
Proof.
  split; [apply normalize_text_again|].
  split; [rewrite !normalize_text_same; apply normalize_text_again|].
  split; [|apply normalize_text_settles].
  intros H. by rewrite normalize_text_again.
Qed.

Lemma normalize_text_twice_strips_witness :
  Py.strip (Validate.normalize_text "123 Main St.")
  ≠ Validate.normalize_text "123 Main St."
  ∧ Validate.normalize_text (Validate.normalize_text " Worcester,  MA ")
    = Validate.normalize_text " Worcester,  MA ".
Proof.
  split; [vm_compute; discriminate|].
  exact (proj1 (proj2 (proj2
           (normalize_text_twice_strips " Worcester,  MA "))) eq_refl).
Defined.

End NormalizeText.

(** ** [candidate_locations] *)

Section Candidates.

Import Validate.

Lemma filter_none {A : Type} (f : A → bool) (l : list A) :
  (∀ x, f x = false) → List.filter f l = [].
Proof.
  intros Hf. induction l as [|x l IH]; simpl; [done|]. by rewrite Hf.
Qed.

Lemma filter_guard {A : Type} (f : A → bool) (l : list A) :
  List.filter (fun x => true && f x) l = List.filter f l.
Proof. reflexivity. Qed.

(** C7: on a non-empty list [candidate_locations] returns a non-empty
    list, namely the locations whose city set contains the normalised city,
    in their order, and the whole list when there is none or when the city
    normalises to the empty string. *)
Theorem candidate_locations_never_empty (local_city : string)
    (locations : list MassGovLocation) :
  locations ≠ [] →
  let normalized_city := normalize_text local_city in
  let hits :=
    List.filter (fun loc => bool_decide (normalized_city ∈ cities loc))
      locations in
  candidate_locations local_city locations ≠ []
  ∧ candidate_locations local_city locations
    = (if Py.truthy normalized_city && Py.nonempty hits then hits
       else locations).
Proof.
  intros Hne. simpl. unfold candidate_locations.
  destruct (Py.truthy (normalize_text local_city)) eqn:Ht.
  - rewrite filter_guard. simpl.
    destruct (List.filter _ locations) as [|loc hits]; simpl; done.
  - rewrite filter_none by done. done.
Qed.

Lemma candidate_locations_never_empty_witness :
  candidate_locations "Worcester"
    [Samples.boston_housing; Samples.worcester_district] ≠ []
  ∧ candidate_locations "Springfield" [Samples.worcester_district]
    = [Samples.worcester_district].
Proof.
  split.
  - apply (candidate_locations_never_empty "Worcester"
             [Samples.boston_housing; Samples.worcester_district]).
    discriminate.
  - refine (eq_trans
              (proj2 (candidate_locations_never_empty "Springfield"
                        [Samples.worcester_district] _)) _);
      [discriminate|reflexivity].
Defined.

End Candidates.

(** ** [find_best_match] and [recommend_action] *)

Section BestMatch.

Import Validate.

Lemma best_loop_score (local : LocalCourt) (locations : list MassGovLocation)
    (st : match_state) :
  (best_loop local locations st).1.1.2
  = fold_left
      (fun best_score loc =>
         let score := (score_location local loc).1.1 in
         if (best_score <? score)%float then score else best_score)
      locations st.1.1.2.
Proof.
  revert st. induction locations as [|loc rest IH]; intros st; simpl; [done|].
  destruct st as [[[best best_score] am] cm].
  destruct (score_location local loc) as [[score a] c]. simpl.
  destruct (best_score <? score)%float; rewrite IH; done.
Qed.

Lemma best_score_is_max_score (local : LocalCourt)
    (locations : list MassGovLocation) :
  (best_loop local locations (None, 0.0%float, false, false)).1.1.2
  = max_score local locations.
Proof. apply best_loop_score. Qed.

(** C5: when the highest score of the scan is below 0.6 the result is no
    match, score 0.0 and both flags false, whatever the flags of the best
    candidate were, and [recommend_action] answers [review] for it. *)
Theorem find_best_match_below_floor (local : LocalCourt)
    (locations : list MassGovLocation) :
  (max_score local locations <? 0.6)%float = true →
  find_best_match local locations = (None, 0.0%float, false, false)
  ∧ (let '(match_, score, addr_match, city_match) :=
       find_best_match local locations in
     recommend_action local match_ score addr_match city_match)
    = ("review", "needs_manual", "No mass.gov location match").
Proof.
  intros Hlow.
  assert (find_best_match local locations = (None, 0.0%float, false, false))
    as ->; [|done].
  unfold find_best_match.
  pose proof (best_score_is_max_score local locations) as Hmax.
  destruct (best_loop local locations _) as [[[best best_score] am] cm].
  simpl in Hmax. rewrite Hmax, Hlow. done.
Qed.

Lemma find_best_match_below_floor_witness :
  (score_location Samples.worcester_street Samples.boston_housing).2 = true
  ∧ find_best_match Samples.worcester_street [Samples.boston_housing]
    = (None, 0.0%float, false, false).
Proof.
  split; [vm_compute; reflexivity|].
  apply (find_best_match_below_floor Samples.worcester_street
           [Samples.boston_housing]).
  vm_compute. reflexivity.
Defined.

(** *** The score of one candidate *)

Lemma normalize_address_empty : normalize_address "" = "".
Proof. reflexivity. Qed.

Lemma address_loop_as_specified (local : LocalCourt)
    (addrs : list (gmap string string)) (score : float) :
  normalize_address (address1 local) ≠ "" →
  address_loop (normalize_address (address1 local)) (orig_address local)
    addrs score
  = (Spec.with_address_bonus score (Spec.first_address_hit local addrs),
     bool_decide (is_Some (Spec.first_address_hit local addrs))).
Proof.
  intros Hline1. induction addrs as [|addr rest IH]; [reflexivity|].
  cbn [address_loop Spec.first_address_hit].
  set (cand := normalize_address (Py.get addr "address_line1")).
  destruct (String.eqb cand (normalize_address (address1 local))) eqn:Eeq.
  - apply String.eqb_eq in Eeq.
    assert (Py.truthy cand = true) as ->
      by (apply truthy_true; congruence).
    reflexivity.
  - rewrite andb_false_r.
    destruct (Py.truthy (orig_address local)) eqn:Eorig; cbn [andb].
    + destruct (Py.truthy cand && Py.contains cand _); [reflexivity|apply IH].
    + apply truthy_false in Eorig.
      assert (normalize_address (orig_address local) = "") as Hdisplay
        by (rewrite Eorig; apply normalize_address_empty).
      rewrite Hdisplay.
      destruct (Py.truthy cand) eqn:Ecand; cbn [andb]; [|apply IH].
      destruct (Py.contains cand "") eqn:Ec; [|apply IH].
      apply contains_empty in Ec. rewrite Ec in Ecand. discriminate.
Qed.

Lemma address_loop_without_display (local_addr_norm : string)
    (addrs : list (gmap string string)) (score : float) :
  address_loop local_addr_norm "" addrs score = (score, false)
  ∨ address_loop local_addr_norm "" addrs score = ((score + 0.2)%float, true).
Proof.
  induction addrs as [|addr rest IH]; [by left|].
  cbn [address_loop Py.truthy andb].
  destruct (Py.truthy _ && String.eqb _ _); [by right|apply IH].
Qed.

Lemma score_location_unfold (local : LocalCourt) (loc : MassGovLocation) :
  score_location local loc
  = (let r :=
       if Py.truthy (normalize_address (address1 local))
       then address_loop (normalize_address (address1 local))
              (orig_address local) (addresses loc)
              (Spec.with_city_bonus local loc)
       else (Spec.with_city_bonus local loc, false) in
     (r.1, r.2, Spec.city_agrees local loc)).
Proof.
  unfold score_location, Spec.with_city_bonus, Spec.city_agrees.
  destruct (Py.truthy (normalize_text (city local)) && _);
    destruct (Py.truthy (normalize_address (address1 local)));
    try reflexivity; destruct (address_loop _ _ _ _); reflexivity.
Qed.

(** C6 (as the specification states it): the score is the ratio, the city
    bonus and the bonus of the first address that satisfies a branch.  A
    record without a first address line gets no address bonus from the
    code, although the candidate's line is a substring of its display
    string. *)
Lemma score_location_not_as_specified :
  normalize_address (address1 Samples.worcester_no_line1) = ""
  ∧ Spec.score Samples.worcester_no_line1 Samples.worcester_district
    = ((1.0 + 0.1 + 0.15)%float, true, true)
  ∧ score_location Samples.worcester_no_line1 Samples.worcester_district
    = ((1.0 + 0.1)%float, false, true)
  ∧ score_location Samples.worcester_no_line1 Samples.worcester_district
    ≠ Spec.score Samples.worcester_no_line1 Samples.worcester_district.
Proof.
  assert (score_location Samples.worcester_no_line1 Samples.worcester_district
          = ((1.0 + 0.1)%float, false, true)) as Hcode
    by (vm_compute; reflexivity).
  assert (Spec.score Samples.worcester_no_line1 Samples.worcester_district
          = ((1.0 + 0.1 + 0.15)%float, true, true)) as Hspec
    by (vm_compute; reflexivity).
  split; [vm_compute; reflexivity|].
  split; [exact Hspec|]. split; [exact Hcode|].
  rewrite Hcode, Hspec. intros [=].
Qed.

(** C6 (amended): when the normalised first address line of the record is
    not empty, the score is the similarity ratio of the normalised names,
    plus 0.1 exactly when the normalised city is non-empty and in the
    candidate's city set, plus the bonus of the first address that satisfies
    a branch, +0.2 for equal normalised lines, else +0.15 for a non-empty
    normalised line that is a substring of the normalised display string;
    when it is empty there is no address bonus.  Nothing clamps the total:
    it exceeds 1.0 for some pair. *)
Theorem score_location_as_specified :
  (∀ (local : LocalCourt) (loc : MassGovLocation),
     score_location local loc
     = if Py.truthy (normalize_address (address1 local))
       then Spec.score local loc
       else (Spec.with_city_bonus local loc, false,
             Spec.city_agrees local loc))
  ∧ (∃ (local : LocalCourt) (loc : MassGovLocation),
       (1.0 <? (score_location local loc).1.1)%float = true).
Proof.
  split.
  - intros local loc. rewrite score_location_unfold.
    destruct (Py.truthy (normalize_address (address1 local))) eqn:Eline1;
      [|done].
    apply truthy_true in Eline1.
    rewrite (address_loop_as_specified local _ _ Eline1). done.
  - exists Samples.worcester_street, Samples.worcester_district.
    vm_compute. reflexivity.
Qed.

(** C10: a record whose first address line normalises to the empty string
    gets no address bonus and an [addr_match] of false from every candidate,
    so [find_best_match] returns false for it; and with an empty
    [orig_address] the only address bonus is the +0.2 of equal lines. *)
Theorem no_address_bonus_without_line1 (local : LocalCourt) :
  (normalize_address (address1 local) = "" →
   (∀ loc : MassGovLocation,
      score_location local loc
      = (Spec.with_city_bonus local loc, false, Spec.city_agrees local loc))
   ∧ (∀ locations : list MassGovLocation,
        (find_best_match local locations).1.2 = false))
  ∧ (orig_address local = "" →
     ∀ loc : MassGovLocation,
       score_location local loc
       = (Spec.with_city_bonus local loc, false, Spec.city_agrees local loc)
       ∨ score_location local loc
         = ((Spec.with_city_bonus local loc + 0.2)%float, true,
            Spec.city_agrees local loc)).
Proof.
  split.
  - intros Hline1.
    assert (∀ loc, score_location local loc
                   = (Spec.with_city_bonus local loc, false,
                      Spec.city_agrees local loc)) as Hscore.
    { intros loc. rewrite score_location_unfold, Hline1. done. }
    split; [done|]. intros locations. unfold find_best_match.
    assert (∀ locs st, st.1.2 = false → (best_loop local locs st).1.2 = false)
      as Hloop.
    { induction locs as [|loc rest IH]; intros st Hst; [exact Hst|].
      cbn [best_loop]. destruct st as [[[best best_score] am] cm].
      rewrite Hscore.
      destruct (best_score <? _)%float; apply IH; [reflexivity|exact Hst]. }
    specialize (Hloop locations (None, 0.0%float, false, false) eq_refl).
    destruct (best_loop local locations _) as [[[best best_score] am] cm].
    cbn [fst snd] in Hloop. subst am.
    destruct (best_score <? 0.6)%float; reflexivity.
  - intros Horig loc. rewrite score_location_unfold, Horig.
    destruct (Py.truthy (normalize_address (address1 local))); [|by left].
    destruct (address_loop_without_display
                (normalize_address (address1 local)) (addresses loc)
                (Spec.with_city_bonus local loc)) as [-> | ->];
      [by left|by right].
Qed.

Lemma no_address_bonus_without_line1_witness :
  Py.contains (normalize_address "225 Main St")
    (normalize_address (orig_address Samples.worcester_no_line1)) = true
  ∧ (find_best_match Samples.worcester_no_line1
       [Samples.worcester_district]).1.2 = false
  ∧ (score_location (Samples.local_court "225 Main Street" "")
       Samples.worcester_district).1.2 = true.
Proof.
  split; [vm_compute; reflexivity|]. split.
  - apply (proj1 (no_address_bonus_without_line1 Samples.worcester_no_line1)
             eq_refl).
  - destruct (proj2 (no_address_bonus_without_line1
                       (Samples.local_court "225 Main Street" ""))
                eq_refl Samples.worcester_district) as [H | H];
      [vm_compute in H; discriminate H|rewrite H; reflexivity].
Defined.

(** *** The Worcester example *)

Lemma candidate_locations_singleton (local_city : string)
    (loc : MassGovLocation) :
  candidate_locations local_city [loc] = [loc].
Proof.
  unfold candidate_locations. cbn [List.filter].
  destruct (Py.truthy _ && bool_decide _); reflexivity.
Qed.

Lemma address_loop_hit (local_addr_norm orig : string)
    (addrs : list (gmap string string)) (score : float) :
  Py.truthy local_addr_norm = true →
  (∃ addr, addr ∈ addrs
           ∧ normalize_address (Py.get addr "address_line1")
             = local_addr_norm) →
  address_loop local_addr_norm orig addrs score = ((score + 0.2)%float, true)
  ∨ address_loop local_addr_norm orig addrs score
    = ((score + 0.15)%float, true).
Proof.
  intros Hline1 (addr & Hin & Heq).
  induction addrs as [|a rest IH]; [by apply elem_of_nil in Hin|].
  cbn [address_loop].
  destruct (Py.truthy (normalize_address (Py.get a "address_line1"))
            && String.eqb (normalize_address (Py.get a "address_line1"))
                 local_addr_norm) eqn:E1; [by left|].
  destruct (Py.truthy orig && _ && _); [by right|].
  apply elem_of_cons in Hin as [-> | Hin]; [|by apply IH].
  rewrite Heq, Hline1, String.eqb_refl in E1. discriminate.
Qed.

Lemma address_loop_miss (local_addr_norm orig : string)
    (addrs : list (gmap string string)) (score : float) :
  (address_loop local_addr_norm orig addrs score).2 = false →
  address_loop local_addr_norm orig addrs score = (score, false).
Proof.
  induction addrs as [|a rest IH]; [reflexivity|]. cbn [address_loop].
  destruct (Py.truthy _ && String.eqb _ _); [discriminate|].
  destruct (Py.truthy orig && _ && _); [discriminate|]. exact IH.
Qed.

Lemma worcester_city_bonus (local : LocalCourt) (loc : MassGovLocation) :
  name local = "Worcester District Court" →
  city local = "Worcester" →
  title loc = "Worcester District Court" →
  "worcester" ∈ cities loc →
  Spec.with_city_bonus local loc = (1.0 + 0.1)%float
  ∧ Spec.city_agrees local loc = true.
Proof.
  intros Hname Hcity Htitle Hin.
  assert (normalize_text "Worcester" = "worcester") as Hnorm
    by (vm_compute; reflexivity).
  assert (Spec.city_agrees local loc = true) as Hagree.
  { unfold Spec.city_agrees. rewrite Hcity, Hnorm.
    by rewrite (bool_decide_eq_true_2 _ Hin). }
  split; [|exact Hagree].
  unfold Spec.with_city_bonus. rewrite Hagree, Hname, Htitle.
  vm_compute. reflexivity.
Qed.

Lemma find_best_match_singleton (local : LocalCourt) (loc : MassGovLocation)
    (score : float) (addr_match city_match : bool) :
  score_location local loc = (score, addr_match, city_match) →
  (0.0 <? score)%float = true →
  (score <? 0.6)%float = false →
  find_best_match local [loc] = (Some loc, score, addr_match, city_match).
Proof.
  intros Hscore Hpos Hfloor. unfold find_best_match. cbn [best_loop].
  rewrite Hscore, Hpos, Hfloor. reflexivity.
Qed.

(** C1 (as the specification states it): a line that differs in the
    spelling of the suffix only leads to [update_local_from_massgov].  It
    does not: "225 Main Street" and "225 Main St" have the same normalised
    form, the address matches and the recommendation is [no_change]. *)
Lemma worcester_not_updated_from_massgov :
  name Samples.worcester_street = "Worcester District Court"
  ∧ city Samples.worcester_street = "Worcester"
  ∧ title Samples.worcester_district = "Worcester District Court"
  ∧ "225 Main Street" ≠ "225 Main St"
  ∧ normalize_address "225 Main Street" = normalize_address "225 Main St"
  ∧ (match_and_recommend [Samples.worcester_district]
       Samples.worcester_street).2
    = ("no_change", "local", "Address matches mass.gov")
  ∧ (match_and_recommend [Samples.worcester_district]
       Samples.worcester_street).2.1.1
    ≠ "update_local_from_massgov".
Proof.
  assert ((match_and_recommend [Samples.worcester_district]
             Samples.worcester_street).2
          = ("no_change", "local", "Address matches mass.gov")) as Hrec
    by (vm_compute; reflexivity).
  do 3 (split; [reflexivity|]). split; [discriminate|].
  split; [vm_compute; reflexivity|]. split; [exact Hrec|].
  rewrite Hrec. discriminate.
Qed.

(** C1 (amended): for a record named "Worcester District Court" in
    "Worcester" and a directory in which exactly one location has
    "worcester" in its city set, a location of that title: when some
    address line of the location has the normalised form of the record's
    non-empty line, as one that differs in the spelling of the suffix only
    has, the recommendation is [no_change] with a score of at least 0.8;
    when no address of the location matches and it has an address, the
    recommendation is [update_local_from_massgov] with the score
    1.0 + 0.1. *)
Theorem worcester_recommendation (local : LocalCourt)
    (locations : list MassGovLocation) (loc : MassGovLocation) :
  name local = "Worcester District Court" →
  city local = "Worcester" →
  title loc = "Worcester District Court" →
  List.filter (fun l => bool_decide ("worcester" ∈ cities l)) locations
  = [loc] →
  (normalize_address (address1 local) ≠ "" →
   (∃ addr, addr ∈ addresses loc
            ∧ normalize_address (Py.get addr "address_line1")
              = normalize_address (address1 local)) →
   ∃ score,
     match_and_recommend locations local
     = (Some loc, score, true, true,
        ("no_change", "local", "Address matches mass.gov"))
     ∧ (0.8 <=? score)%float = true)
  ∧ ((score_location local loc).1.2 = false →
     addresses loc ≠ [] →
     match_and_recommend locations local
     = (Some loc, (1.0 + 0.1)%float, false, true,
        ("update_local_from_massgov", "massgov",
         "High-confidence name/city match"))
     ∧ (0.8 <=? 1.0 + 0.1)%float = true).
Proof.
  intros Hname Hcity Htitle Honly.
  assert ("worcester" ∈ cities loc) as Hin.
  { assert (In loc (List.filter
                      (fun l => bool_decide ("worcester" ∈ cities l))
                      locations)) as H by (rewrite Honly; by left).
    apply filter_In in H as [_ H]. by apply bool_decide_eq_true in H. }
  assert (candidate_locations (city local) locations = [loc]) as Hcand.
  { unfold candidate_locations. rewrite Hcity.
    assert (normalize_text "Worcester" = "worcester") as ->
      by (vm_compute; reflexivity).
    cbn [Py.truthy]. rewrite filter_guard, Honly. reflexivity. }
  destruct (worcester_city_bonus local loc Hname Hcity Htitle Hin)
    as [Hbonus Hagree].
  pose proof (score_location_unfold local loc) as Hscore.
  rewrite Hbonus, Hagree in Hscore.
  unfold match_and_recommend. rewrite Hcand.
  split.
  - intros Hline1 Hhit. apply truthy_true in Hline1. rewrite Hline1 in Hscore.
    destruct (address_loop_hit _ (orig_address local) _ (1.0 + 0.1)%float
                Hline1 Hhit) as [Hloop | Hloop];
      rewrite Hloop in Hscore; cbn [fst snd] in Hscore;
      eexists;
      (rewrite (find_best_match_singleton _ _ _ _ _ Hscore);
       [split; reflexivity|reflexivity|reflexivity]).
  - intros Hmiss Haddrs. rewrite Hscore in Hmiss. cbn [fst snd] in Hmiss.
    assert (score_location local loc = ((1.0 + 0.1)%float, false, true))
      as Hscore'.
    { rewrite Hscore.
      destruct (Py.truthy (normalize_address (address1 local)));
        [|reflexivity].
      rewrite (address_loop_miss _ _ _ _ Hmiss). reflexivity. }
    rewrite (find_best_match_singleton _ _ _ _ _ Hscore');
      [|reflexivity|reflexivity].
    split; [|reflexivity].
    unfold recommend_action.
    destruct (addresses loc); [congruence|]. reflexivity.
Qed.

Lemma worcester_recommendation_witness :
  (∃ score,
     match_and_recommend
       [Samples.boston_municipal; Samples.worcester_district]
       Samples.worcester_street
     = (Some Samples.worcester_district, score, true, true,
        ("no_change", "local", "Address matches mass.gov"))
     ∧ (0.8 <=? score)%float = true)
  ∧ match_and_recommend [Samples.boston_municipal; Samples.court_plaza]
      Samples.worcester_street
    = (Some Samples.court_plaza, (1.0 + 0.1)%float, false, true,
       ("update_local_from_massgov", "massgov",
        "High-confidence name/city match")).
Proof.
  split.
  - apply (proj1 (worcester_recommendation Samples.worcester_street
                    [Samples.boston_municipal; Samples.worcester_district]
                    Samples.worcester_district eq_refl eq_refl eq_refl
                    ltac:(vm_compute; reflexivity))).
    + vm_compute. discriminate.
    + exists {[ "address_line1" := "225 Main St" ]}. split.
      * constructor.
      * vm_compute. reflexivity.
  - apply (proj2 (worcester_recommendation Samples.worcester_street
                    [Samples.boston_municipal; Samples.court_plaza]
                    Samples.court_plaza eq_refl eq_refl eq_refl
                    ltac:(vm_compute; reflexivity))).
    + vm_compute. reflexivity.
    + discriminate.
Defined.

End BestMatch.

(** ** The report *)

Section Report.

Import Validate.

(** C3 (as the specification states it): a verification record replaces
    the three values unconditionally.  It does not: a record that carries a
    final action only leaves the preferred source and the note of
    [recommend_action] in the row. *)
Lemma verification_does_not_always_override :
  let manual := Samples.only_final_action in
  let table : gmap string (gmap string string) :=
    {[ manual_key Samples.worcester_street := manual ]} in
  let row :=
    report_row table [Samples.worcester_district] Samples.worcester_street in
  table !! manual_key Samples.worcester_street = Some manual
  ∧ r_preferred_source row = "local"
  ∧ r_preferred_source row ≠ Py.get manual "preferred_source"
  ∧ r_notes row = "Address matches mass.gov"
  ∧ r_notes row ≠ Py.get manual "verification_notes".
Proof.
  cbv zeta.
  assert (r_preferred_source
            (report_row
               {[ manual_key Samples.worcester_street
                  := Samples.only_final_action ]}
               [Samples.worcester_district] Samples.worcester_street)
          = "local") as Hpref by (vm_compute; reflexivity).
  assert (r_notes
            (report_row
               {[ manual_key Samples.worcester_street
                  := Samples.only_final_action ]}
               [Samples.worcester_district] Samples.worcester_street)
          = "Address matches mass.gov") as Hnote by (vm_compute; reflexivity).
  split; [apply lookup_singleton_eq|].
  split; [exact Hpref|]. split; [rewrite Hpref; vm_compute; discriminate|].
  split; [exact Hnote|]. rewrite Hnote. vm_compute. discriminate.
Qed.

(** C3 (amended): when a verification record exists for the key of the
    record, each of the preferred source, the recommended action and the
    note of the row is the record's [preferred_source], [final_action] and
    [verification_notes] when that value is present and not empty, and the
    value of [recommend_action] otherwise. *)
Theorem verification_overrides_when_given
    (table : gmap string (gmap string string))
    (locations : list MassGovLocation) (local : LocalCourt)
    (manual : gmap string string) :
  table !! manual_key local = Some manual →
  let row := report_row table locations local in
  let '(action, preferred, note) := (match_and_recommend locations local).2 in
  r_preferred_source row
  = (if Py.truthy (Py.get manual "preferred_source")
     then Py.get manual "preferred_source" else preferred)
  ∧ r_recommended_action row
    = (if Py.truthy (Py.get manual "final_action")
       then Py.get manual "final_action" else action)
  ∧ r_notes row
    = (if Py.truthy (Py.get manual "verification_notes")
       then Py.get manual "verification_notes" else note).
Proof.
  intros Hmanual. cbv zeta. unfold report_row. rewrite Hmanual.
  destruct (match_and_recommend locations local)
    as [[[[match_ score] addr_match] city_match] [[action preferred] note]].
  cbn [snd default]. repeat split.
Qed.

Lemma verification_overrides_when_given_witness :
  let table : gmap string (gmap string string) :=
    {[ manual_key Samples.worcester_street := Samples.full_verification ]} in
  let row :=
    report_row table [Samples.worcester_district] Samples.worcester_street in
  r_preferred_source row = "verified"
  ∧ r_recommended_action row = "update_local_from_verified"
  ∧ r_notes row = "Confirmed by the clerk's office".
Proof.
  cbv zeta.
  pose proof (verification_overrides_when_given
                {[ manual_key Samples.worcester_street
                   := Samples.full_verification ]}
                [Samples.worcester_district] Samples.worcester_street
                Samples.full_verification
                (lookup_singleton_eq _ _)) as H.
  cbv zeta in H.
  destruct (match_and_recommend [Samples.worcester_district]
              Samples.worcester_street).2 as [[action preferred] note].
  destruct H as (H1 & H2 & H3).
  split; [|split].
  - rewrite H1. vm_compute. reflexivity.
  - rewrite H2. vm_compute. reflexivity.
  - rewrite H3. vm_compute. reflexivity.
Defined.

End Report.

(** ** [parse_verified_address] *)

Section Parse.

Import Apply.

(** C2 (as the specification states it): with no part, and with one part,
    the unit of the result is empty.  It is not: the result is built with
    [unit = existing_unit] and both branches return it. *)
Lemma existing_unit_not_discarded :
  comma_parts "" = []
  ∧ unit (parse_verified_address "" "Suite 5") = "Suite 5"
  ∧ unit (parse_verified_address "" "Suite 5") ≠ ""
  ∧ comma_parts "1 Main St" = ["1 Main St"]
  ∧ unit (parse_verified_address "1 Main St" "Suite 5") = "Suite 5"
  ∧ unit (parse_verified_address "1 Main St" "Suite 5") ≠ "".
Proof.
  assert (unit (parse_verified_address "" "Suite 5") = "Suite 5") as H0
    by (vm_compute; reflexivity).
  assert (unit (parse_verified_address "1 Main St" "Suite 5") = "Suite 5")
    as H1 by (vm_compute; reflexivity).
  split; [vm_compute; reflexivity|]. split; [exact H0|].
  split; [rewrite H0; discriminate|].
  split; [vm_compute; reflexivity|]. split; [exact H1|].
  rewrite H1. discriminate.
Qed.

(** C2 (amended): for every [existing_unit], a line with no non-empty part
    gives an empty building and an empty line with [existing_unit] as the
    unit, and a line with exactly one part gives that part as the line, an
    empty building and [existing_unit] as the unit. *)
Theorem parse_keeps_existing_unit (address1 existing_unit : string) :
  (comma_parts address1 = [] →
   parse_verified_address address1 existing_unit
   = {| building := ""; address_line1 := ""; unit := existing_unit |})
  ∧ (∀ p : string,
       comma_parts address1 = [p] →
       parse_verified_address address1 existing_unit
       = {| building := ""; address_line1 := p; unit := existing_unit |}).
Proof.
  split.
  - intros H. unfold parse_verified_address. rewrite H. reflexivity.
  - intros p H. unfold parse_verified_address. rewrite H. reflexivity.
Qed.

Lemma parse_keeps_existing_unit_witness :
  parse_verified_address " , ," "Suite 5"
  = {| building := ""; address_line1 := ""; unit := "Suite 5" |}
  ∧ parse_verified_address " 1 Main St ," "Suite 5"
    = {| building := ""; address_line1 := "1 Main St"; unit := "Suite 5" |}.
Proof.
  split.
  - apply (proj1 (parse_keeps_existing_unit " , ," "Suite 5")).
    vm_compute. reflexivity.
  - apply (proj2 (parse_keeps_existing_unit " 1 Main St ," "Suite 5")).
    vm_compute. reflexivity.
Defined.

(** C8: with two parts or more, a first part that contains "courthouse"
    in lower case is the building, the second part the line and the third,
    when there is one, the unit (the unit passed in stays otherwise, later
    parts are dropped); else the first part is the line and the unit is the
    second part, or all parts from the second on joined with ", " when there
    are three or more. *)
Theorem parse_two_parts_or_more (address1 existing_unit p0 p1 : string)
    (rest : list string) :
  comma_parts address1 = p0 :: p1 :: rest →
  parse_verified_address address1 existing_unit
  = if Py.contains "courthouse" (Py.lower p0)
    then {| building := p0;
            address_line1 := p1;
            unit := match rest with
                    | p2 :: _ => p2
                    | [] => existing_unit
                    end |}
    else {| building := "";
            address_line1 := p0;
            unit := match rest with
                    | [] => p1
                    | _ :: _ => Py.join ", " (p1 :: rest)
                    end |}.
Proof.
  intros H. unfold parse_verified_address. rewrite H.
  change (part (p0 :: p1 :: rest) 0) with p0.
  change (part (p0 :: p1 :: rest) 1) with p1.
  change (negb (Py.nonempty (p0 :: p1 :: rest))) with false.
  change (drop 1 (p0 :: p1 :: rest)) with (p1 :: rest).
  cbv iota.
  destruct rest as [|p2 rest].
  - change (Z.of_nat (length [p0; p1])) with 2.
    destruct (Py.contains "courthouse" (Py.lower p0)); reflexivity.
  - change (part (p0 :: p1 :: p2 :: rest) 2) with p2.
    set (n := Z.of_nat (length (p0 :: p1 :: p2 :: rest))).
    assert (3 <= n) as Hn by (subst n; cbn [length]; lia).
    assert ((n =? 1) = false) as -> by (apply Z.eqb_neq; lia).
    assert ((2 <=? n) = true) as -> by (apply Z.leb_le; lia).
    assert ((3 <=? n) = true) as -> by (apply Z.leb_le; lia).
    assert ((2 <? n) = true) as -> by (apply Z.ltb_lt; lia).
    destruct (Py.contains "courthouse" (Py.lower p0)); reflexivity.
Qed.

Lemma parse_two_parts_or_more_witness :
  parse_verified_address "Worcester Courthouse, 1 Main St, Room 4" ""
  = {| building := "Worcester Courthouse"; address_line1 := "1 Main St";
       unit := "Room 4" |}
  ∧ parse_verified_address "1 Main St, Suite 2, Floor 3" ""
    = {| building := ""; address_line1 := "1 Main St";
         unit := "Suite 2, Floor 3" |}.
Proof.
  split.
  - refine (eq_trans
              (parse_two_parts_or_more
                 "Worcester Courthouse, 1 Main St, Room 4" ""
                 "Worcester Courthouse" "1 Main St" ["Room 4"] _) _);
      vm_compute; reflexivity.
  - refine (eq_trans
              (parse_two_parts_or_more "1 Main St, Suite 2, Floor 3" ""
                 "1 Main St" "Suite 2" ["Floor 3"] _) _);
      vm_compute; reflexivity.
Defined.

End Parse.

(** ** The merge of a verified address *)

Section Merge.

Import Apply.

Lemma get_insert_eq (d : gmap string string) (k v : string) :
  Py.get (<[k := v]> d) k = v.
Proof. unfold Py.get. by rewrite lookup_insert_eq. Qed.

Lemma get_insert_ne (d : gmap string string) (k k' v : string) :
  k ≠ k' → Py.get (<[k := v]> d) k' = Py.get d k'.
Proof. intros H. unfold Py.get. by rewrite lookup_insert_ne. Qed.

Lemma or_else_empty (b : string) : Py.or_else "" b = b.
Proof. reflexivity. Qed.

(** The address and the unit are settled before the other keys. *)
Lemma merge_address_early_keys (addr info : gmap string string) (k : string) :
  k ≠ "city" → k ≠ "state" → k ≠ "zip" → k ≠ "orig_address" →
  merge_address addr info !! k
  = (let parsed :=
       parse_verified_address (Py.get info "verified_address1")
         (Py.get addr "unit") in
     let addr :=
       if Py.truthy (address_line1 parsed)
       then <["address" := address_line1 parsed]> addr else addr in
     if Py.truthy (unit parsed) then <["unit" := unit parsed]> addr
     else delete "unit" addr) !! k.
Proof.
  intros Hc Hs Hz Ho. unfold merge_address. cbv zeta.
  rewrite !lookup_insert_ne by congruence. reflexivity.
Qed.

Lemma merge_address_late_key (addr info : gmap string string)
    (k verified : string) :
  k ≠ "address" → k ≠ "unit" →
  Py.get
    (let parsed :=
       parse_verified_address (Py.get info "verified_address1")
         (Py.get addr "unit") in
     let addr :=
       if Py.truthy (address_line1 parsed)
       then <["address" := address_line1 parsed]> addr else addr in
     if Py.truthy (unit parsed) then <["unit" := unit parsed]> addr
     else delete "unit" addr) k
  = Py.get addr k.
Proof.
  intros Ha Hu. cbv zeta. unfold Py.get.
  destruct (Py.truthy (unit _)), (Py.truthy (address_line1 _));
    skip_other_keys; reflexivity.
Qed.

Lemma merge_address_city (addr info : gmap string string) :
  Py.get (merge_address addr info) "city"
  = Py.or_else (Py.get info "verified_city") (Py.get addr "city").
Proof.
  unfold merge_address. cbv zeta.
  rewrite !get_insert_ne by discriminate. rewrite get_insert_eq.
  f_equal. by apply (merge_address_late_key addr info "city" "").
Qed.

Lemma merge_address_state (addr info : gmap string string) :
  Py.get (merge_address addr info) "state"
  = Py.or_else (Py.get info "verified_state") (Py.get addr "state").
Proof.
  unfold merge_address. cbv zeta.
  rewrite !get_insert_ne by discriminate. rewrite get_insert_eq.
  f_equal. rewrite get_insert_ne by discriminate.
  by apply (merge_address_late_key addr info "state" "").
Qed.

Lemma merge_address_zip (addr info : gmap string string) :
  Py.get (merge_address addr info) "zip"
  = Py.or_else (Py.get info "verified_zip") (Py.get addr "zip").
Proof.
  unfold merge_address. cbv zeta.
  rewrite !get_insert_ne by discriminate. rewrite get_insert_eq.
  f_equal. rewrite !get_insert_ne by discriminate.
  by apply (merge_address_late_key addr info "zip" "").
Qed.

Lemma merge_address_line (addr info : gmap string string) :
  address_line1
    (parse_verified_address (Py.get info "verified_address1")
       (Py.get addr "unit")) = "" →
  merge_address addr info !! "address" = addr !! "address".
Proof.
  intros H. rewrite merge_address_early_keys by discriminate. cbv zeta.
  rewrite H. cbn [Py.truthy].
  destruct (Py.truthy (unit _));
    skip_other_keys; reflexivity.
Qed.

Lemma parse_without_parts (address1 existing_unit : string) :
  comma_parts address1 = [] →
  parse_verified_address address1 existing_unit
  = {| building := ""; address_line1 := ""; unit := existing_unit |}.
Proof. intros H. unfold parse_verified_address. by rewrite H. Qed.

Lemma merge_address_unit_kept (addr info : gmap string string) :
  comma_parts (Py.get info "verified_address1") = [] →
  Py.get (merge_address addr info) "unit" = Py.get addr "unit".
Proof.
  intros H. unfold Py.get at 1.
  rewrite merge_address_early_keys by discriminate. cbv zeta.
  rewrite (parse_without_parts _ _ H).
  cbn [address_line1 unit Py.truthy].
  destruct (Py.truthy (Py.get addr "unit")) eqn:E.
  - by rewrite lookup_insert_eq.
  - rewrite lookup_delete_eq. apply truthy_false in E. by rewrite E.
Qed.

Lemma merge_address_other_keys (addr info : gmap string string) (k : string) :
  k ∉ ["address"; "unit"; "city"; "state"; "zip"; "orig_address"] →
  merge_address addr info !! k = addr !! k.
Proof.
  intros Hk.
  assert (k ≠ "address" ∧ k ≠ "unit" ∧ k ≠ "city" ∧ k ≠ "state"
          ∧ k ≠ "zip" ∧ k ≠ "orig_address") as (Ha & Hu & Hc & Hs & Hz & Ho).
  { repeat split; intros ->; apply Hk; repeat constructor. }
  rewrite merge_address_early_keys by done. cbv zeta.
  destruct (Py.truthy (unit _)), (Py.truthy (address_line1 _));
    skip_other_keys; reflexivity.
Qed.

Lemma apply_verification_returns (data : list Entry)
    (court_name court_city : string) (info : gmap string string) (e : Entry) :
  List.filter (entry_matches court_name court_city) data = [e] →
  ∃ data', apply_verification data court_name court_city info = inr data'.
Proof.
  intros H. unfold apply_verification. rewrite H.
  destruct (negb _); eauto.
Qed.

(** C9: the merge makes up no field.  An empty verified city, state or
    zip keeps the value the record had; a parse without a line leaves the
    address line as it was; a verified line without any part also keeps
    the unit, every other key but the rebuilt [orig_address] is untouched,
    without a second verified line the post-office-box flag is the one the
    entry had, and the round of [main] on the one matching entry ends
    without an error. *)
Theorem merge_keeps_prior_values (addr info : gmap string string) :
  let merged := merge_address addr info in
  (Py.get info "verified_city" = "" →
   Py.get merged "city" = Py.get addr "city")
  ∧ (Py.get info "verified_state" = "" →
     Py.get merged "state" = Py.get addr "state")
  ∧ (Py.get info "verified_zip" = "" →
     Py.get merged "zip" = Py.get addr "zip")
  ∧ (address_line1
       (parse_verified_address (Py.get info "verified_address1")
          (Py.get addr "unit")) = "" →
     merged !! "address" = addr !! "address")
  ∧ (comma_parts (Py.get info "verified_address1") = [] →
     merged !! "address" = addr !! "address"
     ∧ Py.get merged "unit" = Py.get addr "unit")
  ∧ (∀ k : string,
       k ∉ ["address"; "unit"; "city"; "state"; "zip"; "orig_address"] →
       merged !! k = addr !! k)
  ∧ (Py.get info "verified_address2" = "" →
     ∀ e : Entry,
       has_po_box (update_entry e info)
       = Some (default false (has_po_box e)))
  ∧ (∀ (data : list Entry) (court_name court_city : string) (e : Entry),
       List.filter (entry_matches court_name court_city) data = [e] →
       ∃ data',
         apply_verification data court_name court_city info = inr data').
Proof.
  cbv zeta.
  split; [intros H; by rewrite merge_address_city, H, or_else_empty|].
  split; [intros H; by rewrite merge_address_state, H, or_else_empty|].
  split; [intros H; by rewrite merge_address_zip, H, or_else_empty|].
  split; [apply merge_address_line|].
  split.
  { intros H. split; [|by apply merge_address_unit_kept].
    apply merge_address_line.
    by rewrite (parse_without_parts _ _ H). }
  split; [apply merge_address_other_keys|].
  split; [intros H e; unfold update_entry; cbn [has_po_box]; by rewrite H|].
  intros data court_name court_city e. apply apply_verification_returns.
Qed.

Lemma merge_keeps_prior_values_witness :
  let merged :=
    merge_address Samples.worcester_address Samples.no_verified_address in
  Py.get merged "city" = "Worcester"
  ∧ Py.get merged "state" = "MA"
  ∧ Py.get merged "zip" = "01608"
  ∧ merged !! "address" = Some "225 Main St"
  ∧ Py.get merged "unit" = "Room 4"
  ∧ merged !! "county" = Some "Worcester County"
  ∧ ∃ data',
      apply_verification [Samples.worcester_entry]
        "Worcester District Court" "WORCESTER" Samples.no_verified_address
      = inr data'.
Proof.
  cbv zeta.
  destruct (merge_keeps_prior_values Samples.worcester_address
              Samples.no_verified_address)
    as (Hcity & Hstate & Hzip & Hline & Hnone & Hother & _ & Hmain).
  split; [rewrite Hcity; vm_compute; reflexivity|].
  split; [rewrite Hstate; vm_compute; reflexivity|].
  split; [rewrite Hzip; vm_compute; reflexivity|].
  split; [rewrite Hline; vm_compute; reflexivity|].
  split; [rewrite (proj2 (Hnone ltac:(vm_compute; reflexivity)));
          vm_compute; reflexivity|].
  split.
  - rewrite (Hother "county"); [vm_compute; reflexivity|].
    intros Hin. repeat (apply elem_of_cons in Hin as [Hin | Hin];
                        [discriminate Hin|]).
    by apply elem_of_nil in Hin.
  - apply (Hmain [Samples.worcester_entry] "Worcester District Court"
             "WORCESTER" Samples.worcester_entry).
    vm_compute. reflexivity.
Defined.

End Merge.

(** * Further properties of the two scripts *)

(** ** The normal form of [normalize_text] *)

Section NormalizedText.

Import NormalForm Validate.

Lemma is_space_lower (c : ascii) :
  Py.is_space (Py.lower_char c) = Py.is_space c.
Proof. destruct c as [[] [] [] [] [] [] [] []]; reflexivity. Qed.

Lemma lower_char_idem (c : ascii) :
  Py.lower_char (Py.lower_char c) = Py.lower_char c.
Proof. destruct c as [[] [] [] [] [] [] [] []]; reflexivity. Qed.

Lemma clean_not_punct (c : ascii) :
  clean c → c ≠ "."%char ∧ c ≠ ","%char.
Proof. intros (_ & H & _). split; intros ->; discriminate H. Qed.

Lemma str_nil (l : list ascii) : Py.str l = "" → l = [].
Proof. destruct l; [done|discriminate]. Qed.

Lemma spaced_no_double_space (b : bool) (l : list ascii) :
  spaced b l → Py.contains_chars [" "; " "]%char l = false.
Proof.
  revert b. induction l as [|c r IH]; intros b; [done|].
  cbn [spaced Py.contains_chars Py.is_prefix]. intros [_ H].
  destruct (Ascii.eqb_spec " " c) as [<- | Hc]; cbn [andb orb].
  - change (Py.is_space " ") with true in H. destruct H as [_ H].
    rewrite (IH _ H), orb_false_r.
    destruct r as [|c' r]; [done|]. cbn [spaced] in H.
    destruct (Ascii.eqb_spec " " c') as [<- | _]; [|done].
    change (Py.is_space " ") with true in H. by destruct H as (_ & ? & _).
  - destruct (Py.is_space c); [destruct H as [_ H]|]; exact (IH _ H).
Qed.

(** X1: the result of [normalize_text] has no full stop and no comma, no
    character that [lower] would change and no white space but the space,
    and nowhere two spaces in a row. *)
Theorem normalize_text_normal_form (s : string) :
  Forall (fun c => c ≠ "."%char ∧ c ≠ ","%char ∧ Py.lower_char c = c
                   ∧ (Py.is_space c = true → c = " "%char))
    (Py.chars (normalize_text s))
  ∧ Py.contains "  " (normalize_text s) = false.
Proof.
  unfold normalize_text, Py.contains. rewrite chars_str.
  pose proof (normalize_text_chars_spaced (Py.chars s)) as H. split.
  - eapply Forall_impl; [exact (spaced_Forall _ _ H)|].
    intros c Hc. destruct (clean_not_punct c Hc) as [? ?].
    destruct Hc as (? & _ & ?). done.
  - exact (spaced_no_double_space _ _ H).
Qed.

Lemma lstrip_nil_iff (l : list ascii) :
  Py.lstrip_chars l = [] ↔ Forall (fun c => Py.is_space c = true) l.
Proof.
  induction l as [|c r IH]; cbn [Py.lstrip_chars]; [done|].
  destruct (Py.is_space c) eqn:E.
  - rewrite IH. split; [by constructor|]. by intros [_ ?]%Forall_cons.
  - split; [discriminate|]. intros [H _]%Forall_cons. cbn beta in H.
    congruence.
Qed.

Lemma strip_nil_iff (l : list ascii) :
  Py.strip_chars l = [] ↔ Forall (fun c => Py.is_space c = true) l.
Proof.
  unfold Py.strip_chars. rewrite rstrip_chars_rev, <- lstrip_nil_iff.
  pose proof (lstrip_head l) as Hh.
  destruct (Py.lstrip_chars l) as [|c r]; [done|].
  destruct (rstrip_keeps_head c r Hh) as [r' ->]. done.
Qed.

Lemma collapse_nil (l : list ascii) : Py.collapse_ws false l = [] → l = [].
Proof.
  destruct l as [|c r]; [done|]. cbn [Py.collapse_ws].
  destruct (Py.is_space c); discriminate.
Qed.

Lemma lstrip_nonspace (l : list ascii) :
  Forall (fun c => Py.is_space c = false) l → Py.lstrip_chars l = l.
Proof. destruct 1 as [|c r Hc _]; [done|]. by apply lstrip_fixed. Qed.

Lemma strip_nonspace (l : list ascii) :
  Forall (fun c => Py.is_space c = false) l → Py.strip_chars l = l.
Proof.
  intros H. unfold Py.strip_chars. rewrite (lstrip_nonspace l H).
  rewrite lstrip_nonspace by by apply Forall_rev. apply rev_involutive.
Qed.

Lemma collapse_punctuation (b : bool) (l : list ascii) :
  Forall (fun c => c = "."%char ∨ c = ","%char) l →
  Py.collapse_ws b
    (map Py.sub_punct_char (map Py.lower_char l))
  = if b then [] else match l with [] => [] | _ :: _ => [" "%char] end.
Proof.
  intros Hl. revert b. induction Hl as [|c r Hc _ IH]; intros b.
  - by destruct b.
  - assert (Py.sub_punct_char (Py.lower_char c) = " "%char) as Hsp
      by (destruct Hc as [-> | ->]; reflexivity).
    cbn [map Py.collapse_ws]. rewrite Hsp.
    change (Py.is_space " ") with true. cbv iota.
    rewrite (IH true). by destruct b.
Qed.

(** X2: [normalize_text] gives the empty string exactly for the strings of
    white space, the empty string among them; a non-empty string of full
    stops and commas gives one space, not the empty string. *)
Theorem normalize_text_empty_iff (s : string) :
  (normalize_text s = ""
   ↔ Forall (fun c => Py.is_space c = true) (Py.chars s))
  ∧ (s ≠ "" →
     Forall (fun c => c = "."%char ∨ c = ","%char) (Py.chars s) →
     normalize_text s = " ").
Proof.
  unfold normalize_text, normalize_text_chars. split; [split|].
  - intros H%str_nil%collapse_nil. apply strip_nil_iff.
    by do 2 apply map_eq_nil in H.
  - intros H%strip_nil_iff. by rewrite H.
  - intros Hne Hpunct.
    rewrite strip_nonspace
      by (eapply Forall_impl; [exact Hpunct|]; by intros c [-> | ->]).
    rewrite (collapse_punctuation false _ Hpunct).
    destruct (Py.chars s) eqn:E; [|reflexivity].
    exfalso. apply Hne. by rewrite <- (str_chars s), E.
Qed.

Lemma lstrip_map_lower (l : list ascii) :
  Py.lstrip_chars (map Py.lower_char l)
  = map Py.lower_char (Py.lstrip_chars l).
Proof.
  induction l as [|c r IH]; [done|]. cbn [map Py.lstrip_chars].
  rewrite is_space_lower. by destruct (Py.is_space c).
Qed.

Lemma strip_map_lower (l : list ascii) :
  Py.strip_chars (map Py.lower_char l)
  = map Py.lower_char (Py.strip_chars l).
Proof.
  unfold Py.strip_chars.
  by rewrite lstrip_map_lower, <- map_rev, lstrip_map_lower, map_rev.
Qed.

(** X3: [normalize_text] does not see the case of the letters nor the white
    space around the string: lowering or stripping the argument first
    changes nothing. *)
Theorem normalize_text_ignores_case_and_margin (s : string) :
  normalize_text (Py.lower s) = normalize_text s
  ∧ normalize_text (Py.strip s) = normalize_text s.
Proof.
  unfold normalize_text, normalize_text_chars, Py.lower, Py.strip.
  rewrite !chars_str. split.
  - rewrite strip_map_lower. do 3 f_equal. rewrite map_map.
    apply map_ext. intros c. apply lower_char_idem.
  - by rewrite strip_chars_idem.
Qed.

End NormalizedText.

(** ** The tokens of [normalize_name] and [normalize_address] *)

Section NormalizedTokens.

Import NormalForm Tokens Validate.

Lemma chars_append (a b : string) :
  Py.chars (a ++ b) = (Py.chars a ++ Py.chars b)%list.
Proof.
  induction a as [|c a IH]; [done|].
  change (Py.chars (String c a ++ b)) with (c :: Py.chars (a ++ b)).
  by rewrite IH.
Qed.

Lemma chars_join (sep : string) (parts : list string) :
  Py.chars (Py.join sep parts) = join_chars (Py.chars sep) (Py.chars <$> parts).
Proof.
  induction parts as [|p rest IH]; [done|].
  destruct rest as [|q rest]; [done|].
  change (Py.join sep (p :: q :: rest))
    with (p ++ sep ++ Py.join sep (q :: rest)).
  rewrite !chars_append, IH. done.
Qed.

Lemma split_ws_aux_app (acc w rest : list ascii) :
  Forall (fun c => Py.is_space c = false) w →
  Py.split_ws_aux acc (w ++ rest) = Py.split_ws_aux (rev w ++ acc) rest.
Proof.
  intros Hw. revert acc. induction Hw as [|c w Hc _ IH]; intros acc; [done|].
  cbn [app Py.split_ws_aux rev]. rewrite Hc, IH, <- app_assoc. done.
Qed.

Lemma split_ws_aux_word (w rest : list ascii) :
  word w →
  Py.split_ws_aux [] (w ++ " "%char :: rest) = w :: Py.split_ws_aux [] rest
  ∧ Py.split_ws_aux [] w = [w].
Proof.
  intros [Hne Hw]. split.
  - rewrite split_ws_aux_app, app_nil_r by done. cbn [Py.split_ws_aux].
    change (Py.is_space " ") with true. cbv iota.
    destruct (rev w) eqn:E; [|by rewrite <- E, rev_involutive].
    by apply (f_equal (@rev ascii)) in E; rewrite rev_involutive in E.
  - rewrite <- (app_nil_r w) at 1.
    rewrite split_ws_aux_app, app_nil_r by done. cbn [Py.split_ws_aux].
    destruct (rev w) eqn:E; [|by rewrite <- E, rev_involutive].
    by apply (f_equal (@rev ascii)) in E; rewrite rev_involutive in E.
Qed.

Lemma split_join (ts : list (list ascii)) :
  Forall word ts → Py.split_ws_aux [] (join_chars [" "%char] ts) = ts.
Proof.
  induction 1 as [|w ts Hw _ IH]; [done|].
  destruct ts as [|w' ts]; [exact (proj2 (split_ws_aux_word w [] Hw))|].
  change (join_chars [" "%char] (w :: w' :: ts))
    with (w ++ " "%char :: join_chars [" "%char] (w' :: ts))%list.
  rewrite (proj1 (split_ws_aux_word w _ Hw)), IH. done.
Qed.

Lemma split_ws_aux_words (acc l : list ascii) :
  Forall (fun c => Py.is_space c = false) acc →
  Forall word (Py.split_ws_aux acc l).
Proof.
  revert acc. induction l as [|c r IH]; intros acc Hacc.
  - cbn [Py.split_ws_aux]. destruct acc as [|x acc]; [done|].
    repeat constructor.
    + intros E. apply (f_equal (@rev ascii)) in E.
      rewrite rev_involutive in E. discriminate E.
    + by apply Forall_rev.
  - cbn [Py.split_ws_aux]. destruct (Py.is_space c) eqn:Ec.
    + destruct acc as [|x acc]; [by apply IH|].
      constructor; [|by apply IH]. split.
      * intros E. apply (f_equal (@rev ascii)) in E.
        rewrite rev_involutive in E. discriminate E.
      * by apply Forall_rev.
    + apply IH. by constructor.
Qed.

Lemma split_ws_aux_chars (P : ascii → Prop) (acc l : list ascii) :
  Forall P acc → Forall P l → Forall (Forall P) (Py.split_ws_aux acc l).
Proof.
  intros Hacc Hl. revert acc Hacc.
  induction Hl as [|c r Hc _ IH]; intros acc Hacc; cbn [Py.split_ws_aux].
  - destruct acc; [done|]. repeat constructor. by apply Forall_rev.
  - destruct (Py.is_space c).
    + destruct acc; [by apply IH|].
      constructor; [by apply Forall_rev|by apply IH].
    + apply IH. by constructor.
Qed.

Lemma spaced_word_app (b : bool) (w rest : list ascii) :
  word w → Forall clean w → spaced false rest → spaced b (w ++ rest).
Proof.
  intros [Hne Hw] Hc Hrest. destruct w as [|c w]; [done|]. clear Hne.
  revert b c Hw Hc. induction w as [|c' w IH]; intros b c Hw Hc.
  - apply Forall_cons in Hw as [Hw _]. apply Forall_cons in Hc as [Hc _].
    cbn [app spaced]. by rewrite Hw.
  - apply Forall_cons in Hw as [Hw Hw']. apply Forall_cons in Hc as [Hc Hc'].
    cbn [app spaced]. rewrite Hw. split; [done|]. by apply (IH false).
Qed.

Lemma spaced_join (b : bool) (ts : list (list ascii)) :
  Forall word ts → Forall (Forall clean) ts →
  spaced b (join_chars [" "%char] ts).
Proof.
  intros Hw. revert b. induction Hw as [|w ts Hw _ IH]; intros b Hc; [done|].
  apply Forall_cons in Hc as [Hc Hcs].
  destruct ts as [|w' ts].
  - cbn [join_chars]. rewrite <- (app_nil_r w). by apply spaced_word_app.
  - change (join_chars [" "%char] (w :: w' :: ts))
      with (w ++ " "%char :: join_chars [" "%char] (w' :: ts))%list.
    apply spaced_word_app; [done|done|].
    cbn [spaced]. change (Py.is_space " ") with true.
    split; [apply clean_space|]. split; [done|]. by apply IH.
Qed.

Lemma rstrip_word (w : list ascii) :
  Forall (fun c => Py.is_space c = false) w → rstrip_chars w = w.
Proof.
  induction 1 as [|c w Hc _ IH]; [done|]. cbn [rstrip_chars].
  rewrite IH, Hc. by destruct w.
Qed.

Lemma rstrip_app (a b : list ascii) :
  rstrip_chars b ≠ [] → rstrip_chars (a ++ b) = (a ++ rstrip_chars b)%list.
Proof.
  intros Hb. induction a as [|c a IH]; [done|].
  cbn [app rstrip_chars]. rewrite IH.
  destruct (a ++ rstrip_chars b)%list eqn:E; [|done].
  by apply app_eq_nil in E as [_ ?].
Qed.

Lemma rstrip_join (ts : list (list ascii)) :
  Forall word ts →
  rstrip_chars (join_chars [" "%char] ts) = join_chars [" "%char] ts.
Proof.
  induction 1 as [|w ts [Hne Hw] Hws IH]; [done|].
  destruct ts as [|w' ts]; [by apply rstrip_word|].
  change (join_chars [" "%char] (w :: w' :: ts))
    with (w ++ " "%char :: join_chars [" "%char] (w' :: ts))%list.
  assert (join_chars [" "%char] (w' :: ts) ≠ []) as Hrest.
  { apply Forall_cons in Hws as [[Hne' _] _].
    destruct w'; [done|]. by destruct ts. }
  rewrite rstrip_app; cbn [rstrip_chars]; rewrite IH;
    by destruct (join_chars [" "%char] (w' :: ts)).
Qed.

Lemma strip_join (ts : list (list ascii)) :
  Forall word ts →
  Py.strip_chars (join_chars [" "%char] ts) = join_chars [" "%char] ts.
Proof.
  intros Hw. unfold Py.strip_chars. rewrite rstrip_chars_rev.
  assert (Py.lstrip_chars (join_chars [" "%char] ts)
          = join_chars [" "%char] ts) as ->; [|by apply rstrip_join].
  destruct Hw as [|w ts [Hne Hw] _]; [done|].
  destruct w as [|c w]; [done|]. apply Forall_cons in Hw as [Hc _].
  destruct ts; cbn [join_chars app]; by apply lstrip_fixed.
Qed.

Lemma normalize_text_join (ts : list string) :
  Forall good_token ts →
  normalize_text (Py.join " " ts) = Py.join " " ts
  ∧ Py.split_ws (Py.join " " ts) = ts.
Proof.
  intros Hts.
  assert (Forall word (Py.chars <$> ts)) as Hw
    by (apply Forall_fmap; eapply Forall_impl; [done|by intros ? []]).
  assert (Forall (Forall clean) (Py.chars <$> ts)) as Hc
    by (apply Forall_fmap; eapply Forall_impl; [done|by intros ? []]).
  unfold normalize_text, Py.split_ws. rewrite chars_join.
  change (Py.chars " ") with [" "%char]. split.
  - rewrite normalize_text_chars_of_spaced by by apply spaced_join.
    rewrite strip_join by done.
    change [" "%char] with (Py.chars " "). by rewrite <- chars_join, str_chars.
  - rewrite split_join by done. rewrite <- list_fmap_compose.
    rewrite <- (list_fmap_id ts) at 2. apply list_fmap_ext.
    intros _ t _. apply str_chars.
Qed.

Lemma normalize_text_tokens (s : string) :
  Forall good_token (Py.split_ws (normalize_text s)).
Proof.
  unfold Py.split_ws, normalize_text. rewrite chars_str.
  apply Forall_fmap, Forall_forall. intros t Ht. unfold good_token. cbn.
  rewrite chars_str. split.
  - revert t Ht. apply Forall_forall. by apply split_ws_aux_words.
  - revert t Ht. apply Forall_forall. apply split_ws_aux_chars; [done|].
    exact (spaced_Forall _ _ (normalize_text_chars_spaced _)).
Qed.

Lemma abbreviation_values (token v : string) :
  ADDRESS_ABBREVIATIONS !! token = Some v →
  good_token v ∧ ADDRESS_ABBREVIATIONS !! v = None.
Proof.
  unfold ADDRESS_ABBREVIATIONS. intros H%elem_of_list_to_map_2.
  repeat (apply elem_of_cons in H as [[= -> ->] | H];
          [split;
           [split;
            [split; [discriminate|repeat constructor]
            |repeat first
               [ apply Forall_nil_2
               | apply Forall_cons_2;
                 [repeat split; first [reflexivity|discriminate]|] ]]
           |vm_compute; reflexivity]|]).
  by apply elem_of_nil in H.
Qed.

Lemma abbreviate_good (token : string) :
  good_token token → good_token (default token (ADDRESS_ABBREVIATIONS !! token)).
Proof.
  intros H. destruct (ADDRESS_ABBREVIATIONS !! token) as [v|] eqn:E; [|done].
  exact (proj1 (abbreviation_values _ _ E)).
Qed.

Lemma abbreviate_idem (token : string) :
  default (default token (ADDRESS_ABBREVIATIONS !! token))
    (ADDRESS_ABBREVIATIONS
       !! default token (ADDRESS_ABBREVIATIONS !! token))
  = default token (ADDRESS_ABBREVIATIONS !! token).
Proof.
  destruct (ADDRESS_ABBREVIATIONS !! token) as [v|] eqn:E;
    cbn [default from_option id].
  - by rewrite (proj2 (abbreviation_values _ _ E)).
  - by rewrite E.
Qed.

(** X4: [normalize_address] is idempotent, and [normalize_text] leaves its
    result as it is. *)
Theorem normalize_address_idempotent (s : string) :
  normalize_address (normalize_address s) = normalize_address s
  ∧ normalize_text (normalize_address s) = normalize_address s.
Proof.
  unfold normalize_address. cbv zeta.
  set (tokens := map (fun token =>
                        default token (ADDRESS_ABBREVIATIONS !! token))
                   (Py.split_ws (normalize_text s))).
  assert (Forall good_token tokens) as Hgood.
  { apply Forall_map. eapply Forall_impl; [apply normalize_text_tokens|].
    intros t. apply abbreviate_good. }
  destruct (normalize_text_join tokens Hgood) as [-> Hsplit].
  split; [|done]. rewrite Hsplit. f_equal. subst tokens.
  rewrite map_map. apply map_ext. intros t. apply abbreviate_idem.
Qed.

Lemma filter_all {A : Type} (P : A → Prop) `{∀ x, Decision (P x)}
    (l : list A) :
  Forall P l → filter P l = l.
Proof.
  induction 1 as [|x l Hx _ IH]; [done|].
  by rewrite filter_cons_True, IH.
Qed.

(** X5: [normalize_name] is idempotent, [normalize_text] leaves its result
    as it is, and no word of the result is a stop word. *)
Theorem normalize_name_idempotent (s : string) :
  normalize_name (normalize_name s) = normalize_name s
  ∧ normalize_text (normalize_name s) = normalize_name s
  ∧ Forall (fun t => t ∉ NAME_STOPWORDS) (Py.split_ws (normalize_name s)).
Proof.
  unfold normalize_name. cbv zeta.
  set (tokens := filter (fun t => t ∉ NAME_STOPWORDS)
                   (Py.split_ws (normalize_text s))).
  assert (Forall good_token tokens) as Hgood.
  { apply Forall_forall. intros t [_ Ht]%list_elem_of_filter.
    revert t Ht. apply Forall_forall, normalize_text_tokens. }
  assert (Forall (fun t => t ∉ NAME_STOPWORDS) tokens) as Hstop.
  { apply Forall_forall. by intros t [? _]%list_elem_of_filter. }
  destruct (normalize_text_join tokens Hgood) as [-> Hsplit].
  rewrite Hsplit. split; [|done]. by rewrite filter_all.
Qed.

End NormalizedTokens.

(** ** Candidates, best match and recommendation *)

Section Matching.

Import Validate.

Lemma filter_filter {A : Type} (f : A → bool) (l : list A) :
  List.filter f (List.filter f l) = List.filter f l.
Proof.
  induction l as [|x l IH]; [done|]. cbn [List.filter].
  destruct (f x) eqn:E; [|done]. cbn [List.filter]. by rewrite E, IH.
Qed.

Lemma candidate_locations_sublist (local_city : string)
    (locations : list MassGovLocation) (loc : MassGovLocation) :
  loc ∈ candidate_locations local_city locations → loc ∈ locations.
Proof.
  unfold candidate_locations.
  destruct (List.filter _ locations) as [|x l] eqn:E; [done|].
  rewrite <- E, !list_elem_of_In, filter_In. by intros [? _].
Qed.

(** X6: a candidate is always one of the locations, and filtering the
    candidates for the same city again gives the same list. *)
Theorem candidate_locations_stable (local_city : string)
    (locations : list MassGovLocation) :
  (∀ loc, loc ∈ candidate_locations local_city locations → loc ∈ locations)
  ∧ candidate_locations local_city
      (candidate_locations local_city locations)
    = candidate_locations local_city locations.
Proof.
  split; [intros loc; apply candidate_locations_sublist|].
  unfold candidate_locations.
  set (f := fun loc : MassGovLocation =>
              Py.truthy (normalize_text local_city)
              && bool_decide (normalize_text local_city ∈ cities loc)).
  destruct (List.filter f locations) as [|x l] eqn:E; [by rewrite E|].
  by rewrite <- E, filter_filter, E.
Qed.

Lemma best_loop_sound (P : MassGovLocation → Prop) (local : LocalCourt)
    (locations : list MassGovLocation) (st : match_state) :
  (∀ m, m ∈ locations → P m) →
  (st = (None, 0.0%float, false, false)
   ∨ ∃ m, P m ∧ st = (Some m, (score_location local m).1.1,
                      (score_location local m).1.2,
                      (score_location local m).2)) →
  best_loop local locations st = (None, 0.0%float, false, false)
  ∨ ∃ m, P m ∧ best_loop local locations st
               = (Some m, (score_location local m).1.1,
                  (score_location local m).1.2,
                  (score_location local m).2).
Proof.
  revert st. induction locations as [|loc rest IH]; intros st HP Hst;
    [exact Hst|].
  cbn [best_loop]. destruct st as [[[best best_score] am] cm].
  destruct (score_location local loc) as [[score a] c] eqn:E.
  assert (∀ m, m ∈ rest → P m) as HP'
    by (intros m Hm; apply HP; by constructor).
  destruct (best_score <? score)%float; apply IH; try done.
  right. exists loc. split; [apply HP; constructor|]. by rewrite E.
Qed.

Lemma find_best_match_sound (local : LocalCourt)
    (locations : list MassGovLocation) :
  find_best_match local locations = (None, 0.0%float, false, false)
  ∨ ∃ m, m ∈ locations
         ∧ ((score_location local m).1.1 <? 0.6)%float = false
         ∧ find_best_match local locations
           = (Some m, (score_location local m).1.1,
              (score_location local m).1.2, (score_location local m).2).
Proof.
  unfold find_best_match.
  destruct (best_loop_sound (fun m => m ∈ locations) local locations
              (None, 0.0%float, false, false)) as [-> | (m & Hm & ->)];
    [done|by left|by left|].
  destruct (_ <? 0.6)%float eqn:E; [by left|]. right. by exists m.
Qed.

(** X7: [find_best_match] answers either no match with score 0.0 and both
    flags false, or one of the locations it was given together with the
    score and the flags that location has, a score not below 0.6. *)
Theorem find_best_match_returns_a_candidate (local : LocalCourt)
    (locations : list MassGovLocation) :
  find_best_match local locations = (None, 0.0%float, false, false)
  ∨ ∃ (m : MassGovLocation) (score : float) (addr_match city_match : bool),
      m ∈ locations
      ∧ score_location local m = (score, addr_match, city_match)
      ∧ (score <? 0.6)%float = false
      ∧ find_best_match local locations
        = (Some m, score, addr_match, city_match).
Proof.
  destruct (find_best_match_sound local locations) as [H | (m & Hm & Hf & H)];
    [by left|right].
  exists m. destruct (score_location local m) as [[score a] c].
  by exists score, a, c.
Qed.

(** X8: the table of [recommend_action].  The action is [review] exactly
    without a match, [no_change] exactly for a match with a matching
    address, [update_local_from_massgov] exactly for a match without a
    matching address, with a score of 0.8 or more, a matching city and at
    least one address, and [verify_web] otherwise; only [no_change] prefers
    the local source and only [update_local_from_massgov] prefers
    mass.gov. *)
Theorem recommend_action_table (local : LocalCourt)
    (match_ : option MassGovLocation) (score : float)
    (addr_match city_match : bool) :
  let action := (recommend_action local match_ score addr_match
                   city_match).1.1 in
  let preferred := (recommend_action local match_ score addr_match
                      city_match).1.2 in
  (action = "review" ↔ match_ = None)
  ∧ (action = "no_change" ↔ is_Some match_ ∧ addr_match = true)
  ∧ (action = "update_local_from_massgov"
     ↔ ∃ m, match_ = Some m ∧ addr_match = false
            ∧ (0.8 <=? score)%float = true ∧ city_match = true
            ∧ addresses m ≠ [])
  ∧ (action = "review" ∨ action = "no_change"
     ∨ action = "update_local_from_massgov" ∨ action = "verify_web")
  ∧ (preferred = "local" ↔ action = "no_change")
  ∧ (preferred = "massgov" ↔ action = "update_local_from_massgov")
  ∧ (preferred = "needs_manual"
     ↔ action = "review" ∨ action = "verify_web").
Proof.
  cbv zeta. unfold recommend_action.
  destruct match_ as [m|]; [destruct addr_match|]; cbn [fst snd].
  - repeat apply conj; first [table_line | intros _; table_line].
  - destruct (0.8 <=? score)%float, city_match,
      (addresses m) as [|a l] eqn:E;
      cbn [andb Py.nonempty fst snd];
      repeat apply conj;
      first
        [ table_line
        | intros _; table_line
        | intros _; exists m; rewrite E;
          repeat split; first [reflexivity|discriminate]
        | intros (m0 & [= <-] & _ & _ & _ & H); by rewrite E in H ].
  - repeat apply conj; first [table_line | intros _; table_line].
Qed.

End Matching.

(** ** The rows of the report *)

Section Rows.

Import Validate.

Lemma get_empty (k : string) : Py.get ∅ k = "".
Proof. unfold Py.get. by rewrite lookup_empty. Qed.

Lemma find_best_match_reset (local : LocalCourt)
    (locations : list MassGovLocation) :
  (max_score local locations <? 0.6)%float = true →
  find_best_match local locations = (None, 0.0%float, false, false).
Proof.
  intros Hlow. unfold find_best_match.
  pose proof (best_score_is_max_score local locations) as Hmax.
  destruct (best_loop local locations _) as [[[best best_score] am] cm].
  cbn [fst snd] in Hmax. by rewrite Hmax, Hlow.
Qed.

Lemma city_match_sound (local : LocalCourt) (loc : MassGovLocation) :
  (score_location local loc).2 = true →
  normalize_text (city local) ≠ ""
  ∧ normalize_text (city local) ∈ cities loc.
Proof.
  rewrite score_location_unfold. cbn [snd]. unfold Spec.city_agrees.
  intros [Ht Hin]%andb_true_iff. split; [by apply truthy_true|].
  by apply bool_decide_eq_true in Hin.
Qed.

(** X9: when the pipeline recommends [update_local_from_massgov], the match
    is one of the locations, it has a first address, which is the one
    [pick_primary_address] puts into the row, the score is 0.8 or more, no
    address of it matched, and the normalised city of the record is not
    empty and in its city set. *)
Theorem update_from_massgov_has_an_address
    (locations : list MassGovLocation) (local : LocalCourt) :
  (match_and_recommend locations local).2.1.1 = "update_local_from_massgov" →
  ∃ (m : MassGovLocation) (score : float) (addr : gmap string string)
    (rest : list (gmap string string)),
    (match_and_recommend locations local).1 = (Some m, score, false, true)
    ∧ m ∈ locations
    ∧ addresses m = addr :: rest
    ∧ pick_primary_address m = addr
    ∧ (0.8 <=? score)%float = true
    ∧ normalize_text (city local) ≠ ""
    ∧ normalize_text (city local) ∈ cities m.
Proof.
  unfold match_and_recommend.
  destruct (find_best_match_sound local
              (candidate_locations (city local) locations))
    as [-> | (m & Hm & _ & ->)]; [discriminate|].
  apply candidate_locations_sublist in Hm.
  pose proof (city_match_sound local m) as Hcity.
  destruct (score_location local m) as [[score a] c]. cbn [fst snd] in *.
  unfold recommend_action, pick_primary_address.
  destruct a; [discriminate|].
  destruct (0.8 <=? score)%float eqn:Hs; [|discriminate].
  destruct c; [|discriminate].
  destruct (addresses m) as [|addr rest] eqn:Ha; [discriminate|]. intros _.
  exists m, score, addr, rest. destruct (Hcity eq_refl). by rewrite Ha.
Qed.

Lemma update_from_massgov_has_an_address_witness :
  ∃ (m : MassGovLocation) (score : float) (addr : gmap string string)
    (rest : list (gmap string string)),
    (match_and_recommend
       [Samples.location "Worcester District Court" ["1 Court Plaza"]
          ["worcester"]]
       Samples.worcester_street).1 = (Some m, score, false, true)
    ∧ m ∈ [Samples.location "Worcester District Court" ["1 Court Plaza"]
             ["worcester"]]
    ∧ addresses m = addr :: rest
    ∧ pick_primary_address m = addr
    ∧ (0.8 <=? score)%float = true
    ∧ normalize_text (city Samples.worcester_street) ≠ ""
    ∧ normalize_text (city Samples.worcester_street) ∈ cities m.
Proof.
  apply (update_from_massgov_has_an_address
           [Samples.location "Worcester District Court" ["1 Court Plaza"]
              ["worcester"]]
           Samples.worcester_street).
  vm_compute. reflexivity.
Defined.

(** X10: when no candidate reaches 0.6 the row names no location: the
    name, the score, the five address columns and the link are empty and
    both flags are false; without a verification record the row says
    [review]. *)
Theorem report_row_without_match
    (table : gmap string (gmap string string))
    (locations : list MassGovLocation) (local : LocalCourt) :
  (max_score local (candidate_locations (city local) locations) <? 0.6)%float
  = true →
  let row := report_row table locations local in
  r_massgov_name row = ""
  ∧ r_massgov_match_score row = None
  ∧ r_massgov_address1 row = "" ∧ r_massgov_address2 row = ""
  ∧ r_massgov_city row = "" ∧ r_massgov_state row = ""
  ∧ r_massgov_zip row = "" ∧ r_massgov_url row = ""
  ∧ r_address_match row = false ∧ r_city_match row = false
  ∧ (table !! manual_key local = None →
     r_recommended_action row = "review"
     ∧ r_preferred_source row = "needs_manual"
     ∧ r_notes row = "No mass.gov location match").
Proof.
  intros Hlow. cbv zeta. unfold report_row, match_and_recommend.
  rewrite (find_best_match_reset _ _ Hlow).
  cbn [recommend_action r_massgov_name r_massgov_match_score
         r_massgov_address1 r_massgov_address2 r_massgov_city
         r_massgov_state r_massgov_zip r_massgov_url r_address_match
         r_city_match r_recommended_action r_preferred_source r_notes].
  rewrite !get_empty. do 10 (split; [reflexivity|]).
  intros ->. cbn [default from_option id]. rewrite !get_empty.
  repeat split.
Qed.

Lemma report_row_without_match_witness :
  let row :=
    report_row ∅ [Samples.boston_housing] Samples.worcester_street in
  r_massgov_name row = "" ∧ r_massgov_match_score row = None
  ∧ r_city_match row = false ∧ r_recommended_action row = "review".
Proof.
  cbv zeta.
  destruct (report_row_without_match ∅ [Samples.boston_housing]
              Samples.worcester_street)
    as (H1 & H2 & _ & _ & _ & _ & _ & _ & _ & H3 & H4);
    [vm_compute; reflexivity|].
  destruct (H4 (lookup_empty _)) as (H5 & _).
  exact (conj H1 (conj H2 (conj H3 H5))).
Defined.

(** X11: without a verification record for the key of the record the row
    carries the action, the preferred source and the note of
    [recommend_action], and all its verification columns are empty. *)
Theorem report_row_without_verification
    (table : gmap string (gmap string string))
    (locations : list MassGovLocation) (local : LocalCourt) :
  table !! manual_key local = None →
  let row := report_row table locations local in
  (r_recommended_action row, r_preferred_source row, r_notes row)
  = (match_and_recommend locations local).2
  ∧ r_verified_address1 row = "" ∧ r_verified_address2 row = ""
  ∧ r_verified_city row = "" ∧ r_verified_state row = ""
  ∧ r_verified_zip row = "" ∧ r_verification_source_name row = ""
  ∧ r_verification_source_url row = "" ∧ r_verification_notes row = ""
  ∧ r_secondary_address1 row = "" ∧ r_secondary_address2 row = ""
  ∧ r_secondary_city row = "" ∧ r_secondary_state row = ""
  ∧ r_secondary_zip row = "" ∧ r_secondary_source_name row = ""
  ∧ r_secondary_source_url row = "" ∧ r_secondary_source_notes row = ""
  ∧ r_secondary_source_confidence row = "" ∧ r_final_action row = "".
Proof.
  intros Hnone. cbv zeta. unfold report_row. rewrite Hnone.
  destruct (match_and_recommend locations local)
    as [[[[match_ score] addr_match] city_match] [[action preferred] note]].
  cbn [default from_option id snd]. repeat split.
Qed.

Lemma report_row_without_verification_witness :
  let row :=
    report_row ∅ [Samples.worcester_district] Samples.worcester_street in
  r_recommended_action row = "no_change" ∧ r_final_action row = "".
Proof.
  cbv zeta.
  destruct (report_row_without_verification ∅ [Samples.worcester_district]
              Samples.worcester_street (lookup_empty _)) as (H & Hrest).
  split.
  - apply (f_equal (fun x => x.1.1)) in H. cbn [fst] in H. rewrite H.
    vm_compute. reflexivity.
  - apply Hrest.
Defined.

End Rows.

(** ** The addresses and the cities of a fetched location *)

Section Fetched.

Import Validate.

Lemma collect_loop_spec (address_by_id : gmap string (gmap string string))
    (addr_ids : list string) (seen : gset (string * string * string * string))
    (addresses : list (gmap string string)) :
  NoDup (address_key <$> addresses) →
  (∀ k, k ∈ seen ↔ k ∈ address_key <$> addresses) →
  NoDup (address_key <$> collect_loop address_by_id addr_ids seen addresses)
  ∧ (∀ a, a ∈ collect_loop address_by_id addr_ids seen addresses →
          a ∈ addresses
          ∨ (a ≠ ∅ ∧ ∃ addr_id, addr_id ∈ addr_ids
                                ∧ address_by_id !! addr_id = Some a))
  ∧ (∀ a, a ∈ addresses →
          a ∈ collect_loop address_by_id addr_ids seen addresses)
  ∧ (∀ addr_id a,
       addr_id ∈ addr_ids → address_by_id !! addr_id = Some a → a ≠ ∅ →
       ∃ a', a' ∈ collect_loop address_by_id addr_ids seen addresses
             ∧ address_key a' = address_key a).
Proof.
  revert seen addresses.
  induction addr_ids as [|addr_id rest IH]; intros seen addresses Hdup Hseen.
  { cbn [collect_loop]. repeat split; [done|by left|done|].
    intros ? ? []%elem_of_nil. }
  cbn [collect_loop].
  destruct (address_by_id !! addr_id) as [addr|] eqn:Eid.
  2: { destruct (IH seen addresses Hdup Hseen) as (H1 & H2 & H3 & H4).
       repeat split; [done| |done|].
       - intros a [?|(? & i & ? & ?)]%H2; [by left|right].
         split; [done|]. exists i. split; [by constructor|done].
       - intros i a [->|Hi]%elem_of_cons Ha Hne; [congruence|eauto]. }
  case_bool_decide as Hempty.
  { destruct (IH seen addresses Hdup Hseen) as (H1 & H2 & H3 & H4).
    repeat split; [done| |done|].
    - intros a [?|(? & i & ? & ?)]%H2; [by left|right].
      split; [done|]. exists i. split; [by constructor|done].
    - intros i a [->|Hi]%elem_of_cons Ha Hne; [congruence|eauto]. }
  case_bool_decide as Hkey.
  { destruct (IH seen addresses Hdup Hseen) as (H1 & H2 & H3 & H4).
    repeat split; [done| |done|].
    - intros a [?|(? & i & ? & ?)]%H2; [by left|right].
      split; [done|]. exists i. split; [by constructor|done].
    - intros i a [->|Hi]%elem_of_cons Ha Hne; [|eauto].
      assert (a = addr) as -> by congruence.
      apply Hseen, list_elem_of_fmap in Hkey as (a0 & Hk & Ha0). eauto. }
  destruct (IH ({[address_key addr]} ∪ seen) (addresses ++ [addr])%list)
    as (H1 & H2 & H3 & H4).
  { rewrite fmap_snoc. apply NoDup_app. split; [done|]. split.
    - intros k Hk ->%list_elem_of_singleton. by apply Hkey, Hseen.
    - apply NoDup_singleton. }
  { intros k. rewrite fmap_snoc, elem_of_app, list_elem_of_singleton,
      elem_of_union, elem_of_singleton, Hseen. tauto. }
  repeat split; [done| | |].
  - intros a [[?| ->%list_elem_of_singleton]%elem_of_app
             |(? & i & ? & ?)]%H2.
    + by left.
    + right. split; [done|]. exists addr_id. split; [constructor|done].
    + right. split; [done|]. exists i. split; [by constructor|done].
  - intros a Ha. apply H3, elem_of_app. by left.
  - intros i a [->|Hi]%elem_of_cons Ha Hne; [|eauto].
    assert (a = addr) as -> by congruence.
    exists addr. split; [|done]. apply H3, elem_of_app. right. constructor.
Qed.

(** X12: the addresses collected for a location have pairwise different
    keys (first line, second line, city, postal code); each is a non-empty
    address that one of the visited identifiers names, and every such
    address has its key in the result. *)
Theorem collect_addresses_dedupes (contact_ids : list string)
    (contact_to_addresses : gmap string (list string))
    (address_by_id : gmap string (gmap string string)) :
  let addresses :=
    collect_addresses contact_ids contact_to_addresses address_by_id in
  let addr_ids := address_ids contact_ids contact_to_addresses in
  NoDup (address_key <$> addresses)
  ∧ (∀ a, a ∈ addresses →
          a ≠ ∅ ∧ ∃ addr_id, addr_id ∈ addr_ids
                             ∧ address_by_id !! addr_id = Some a)
  ∧ (∀ addr_id a,
       addr_id ∈ addr_ids → address_by_id !! addr_id = Some a → a ≠ ∅ →
       ∃ a', a' ∈ addresses ∧ address_key a' = address_key a).
Proof.
  cbv zeta. unfold collect_addresses.
  destruct (collect_loop_spec address_by_id
              (address_ids contact_ids contact_to_addresses) ∅ [])
    as (H1 & H2 & _ & H4); [constructor|set_solver|].
  split; [done|]. split; [|done].
  intros a [[]%elem_of_nil|?]%H2. done.
Qed.

Lemma location_cities_spec (addresses : list (gmap string string))
    (c : string) :
  c ∈ location_cities addresses
  ↔ ∃ a, a ∈ addresses ∧ Py.get a "city" ≠ ""
         ∧ normalize_text (Py.get a "city") = c.
Proof.
  unfold location_cities.
  rewrite elem_of_list_to_set, list_elem_of_fmap. split.
  - intros (a & -> & Ha). apply list_elem_of_In, filter_In in Ha as [Ha Ht].
    exists a. split; [by apply list_elem_of_In|].
    split; [by apply truthy_true|done].
  - intros (a & Ha & Ht & <-). exists a. split; [done|].
    apply list_elem_of_In, filter_In. split; [by apply list_elem_of_In|].
    by apply truthy_true.
Qed.

(** X13: the city set of a built location holds exactly the normalised
    cities of its addresses that have one, so a built location with an
    address whose city normalises like the city of a record is among the
    candidates for that record. *)
Theorem built_location_is_candidate (title loc_id : string)
    (path_alias : option string) (contact_ids : list string)
    (contact_to_addresses : gmap string (list string))
    (address_by_id : gmap string (gmap string string))
    (locations : list MassGovLocation) (local_city : string) :
  let loc :=
    build_location title loc_id path_alias contact_ids contact_to_addresses
      address_by_id in
  (∀ c, c ∈ cities loc
        ↔ ∃ a, a ∈ addresses loc ∧ Py.get a "city" ≠ ""
               ∧ normalize_text (Py.get a "city") = c)
  ∧ (loc ∈ locations →
     (∃ a, a ∈ addresses loc ∧ Py.get a "city" ≠ ""
           ∧ normalize_text (Py.get a "city") = normalize_text local_city) →
     loc ∈ candidate_locations local_city locations).
Proof.
  cbv zeta. split; [intros c; apply location_cities_spec|].
  intros Hloc Hcity%location_cities_spec.
  change (location_cities _) with
    (cities (build_location title loc_id path_alias contact_ids
               contact_to_addresses address_by_id)) in Hcity.
  set (loc := build_location _ _ _ _ _ _) in *.
  unfold candidate_locations.
  destruct (Py.truthy (normalize_text local_city)) eqn:Ht.
  - assert (loc ∈ List.filter
              (fun loc0 => true && bool_decide
                             (normalize_text local_city ∈ cities loc0))
              locations) as Hin.
    { apply list_elem_of_In, filter_In. split; [by apply list_elem_of_In|].
      by apply bool_decide_eq_true_2. }
    by destruct (List.filter _ locations).
  - by rewrite filter_none.
Qed.

End Fetched.

(** ** Display strings and their parts *)

Section Parts.

Import NormalForm Tokens Apply.

Lemma split_on_aux_app (acc p l : list ascii) :
  Forall (fun c => c ≠ ","%char) p →
  Py.split_on_aux "," acc (p ++ l) = Py.split_on_aux "," (rev p ++ acc) l.
Proof.
  intros Hp. revert acc. induction Hp as [|c p Hc _ IH]; intros acc; [done|].
  cbn [app Py.split_on_aux rev].
  destruct (Ascii.eqb_spec c ","); [done|]. by rewrite IH, <- app_assoc.
Qed.

Lemma split_on_join (acc p : list ascii) (rest : list (list ascii)) :
  Forall (fun q => Forall (fun c => c ≠ ","%char) q) (p :: rest) →
  Py.split_on_aux "," acc (join_chars [","; " "]%char (p :: rest))
  = (rev acc ++ p)%list :: (cons " "%char <$> rest).
Proof.
  revert acc p. induction rest as [|q rest IH]; intros acc p Hall.
  - apply Forall_cons in Hall as [Hp _]. cbn [join_chars fmap list_fmap].
    rewrite <- (app_nil_r p) at 1. rewrite split_on_aux_app by done.
    cbn [Py.split_on_aux]. by rewrite rev_app_distr, rev_involutive.
  - apply Forall_cons in Hall as [Hp Hrest].
    change (join_chars [","; " "]%char (p :: q :: rest))
      with (p ++ ","%char :: " "%char
              :: join_chars [","; " "]%char (q :: rest))%list.
    rewrite split_on_aux_app by done. cbn [Py.split_on_aux].
    change (Ascii.eqb "," ",") with true. cbv iota.
    change (Ascii.eqb " " ",") with false. cbv iota.
    rewrite (IH [" "%char] q Hrest), rev_app_distr, rev_involutive. done.
Qed.

Lemma strip_plain (p : list ascii) :
  plain_part p →
  Py.strip_chars p = p ∧ Py.strip_chars (" "%char :: p) = p.
Proof.
  intros (_ & (c & r & -> & Hc) & (r' & c' & Hr' & Hc')).
  assert (rstrip_chars (c :: r) = c :: r) as Hright.
  { rewrite Hr'. rewrite rstrip_app; cbn [rstrip_chars]; by rewrite Hc'. }
  unfold Py.strip_chars. rewrite !rstrip_chars_rev.
  change (Py.lstrip_chars (" "%char :: c :: r))
    with (Py.lstrip_chars (c :: r)).
  by rewrite (lstrip_fixed c r Hc).
Qed.

Lemma plain_part_nonempty (p : list ascii) : plain_part p → p ≠ [].
Proof. by intros (_ & (c & r & -> & _) & _). Qed.

Lemma comma_parts_of_pieces (pieces : list (list ascii)) (s : string) :
  Py.split_on_aux "," [] (Py.chars s) = pieces →
  comma_parts s
  = map Py.strip
      (List.filter (fun part => Py.truthy (Py.strip part))
         (map Py.str pieces)).
Proof. intros <-. reflexivity. Qed.

Lemma strip_str (l : list ascii) : Py.strip (Py.str l) = Py.str (Py.strip_chars l).
Proof. unfold Py.strip. by rewrite chars_str. Qed.

Lemma truthy_str (l : list ascii) : l ≠ [] → Py.truthy (Py.str l) = true.
Proof. by destruct l. Qed.

Lemma kept_spaced_parts (rest : list string) :
  Forall (fun p => plain_part (Py.chars p)) rest →
  map Py.strip
    (List.filter (fun part => Py.truthy (Py.strip part))
       (map Py.str (cons " "%char <$> (Py.chars <$> rest))))
  = rest.
Proof.
  induction 1 as [|p rest Hp _ IH]; [done|].
  cbn [fmap list_fmap map List.filter].
  assert (Py.truthy (Py.strip (Py.str (" "%char :: Py.chars p))) = true)
    as ->.
  { rewrite strip_str, (proj2 (strip_plain _ Hp)).
    by apply truthy_str, plain_part_nonempty. }
  cbn [map]. rewrite strip_str, (proj2 (strip_plain _ Hp)), str_chars.
  f_equal. exact IH.
Qed.

Lemma comma_parts_join_plain (parts : list string) :
  Forall (fun p => plain_part (Py.chars p)) parts →
  comma_parts (Py.join ", " parts) = parts.
Proof.
  intros Hparts. destruct Hparts as [|p rest Hp Hrest]; [done|].
  erewrite comma_parts_of_pieces.
  2: { rewrite chars_join. change (Py.chars ", ") with [","; " "]%char.
       cbn [fmap list_fmap]. apply split_on_join.
       apply Forall_cons. split; [by destruct Hp|].
       apply Forall_fmap. eapply Forall_impl; [exact Hrest|].
       by intros q [? _]. }
  cbn [rev app map List.filter].
  assert (Py.truthy (Py.strip (Py.str (Py.chars p))) = true) as ->.
  { rewrite strip_str, (proj1 (strip_plain _ Hp)).
    by apply truthy_str, plain_part_nonempty. }
  cbn [map]. rewrite strip_str, (proj1 (strip_plain _ Hp)), str_chars.
  f_equal. by apply kept_spaced_parts.
Qed.

(** X14: joining parts with ", " and taking the comma parts again gives
    the parts back, when each part is not empty, has no comma and no white
    space at either end. *)
Theorem comma_parts_join (parts : list string) :
  Forall (fun p => plain_part (Py.chars p)) parts →
  comma_parts (Py.join ", " parts) = parts.
Proof. apply comma_parts_join_plain. Qed.

Lemma comma_parts_truthy (address1 : string) :
  Forall (fun p => Py.truthy p = true) (comma_parts address1).
Proof.
  unfold comma_parts. apply Forall_map, Forall_forall.
  intros part Hpart%list_elem_of_In%filter_In. by destruct Hpart.
Qed.

(** X15: the parse has an empty address line exactly when the verified line
    has no non-empty part; with a part, the line of the result is one of
    the parts. *)
Theorem parsed_line_empty_iff (address1 existing_unit : string) :
  (address_line1 (parse_verified_address address1 existing_unit) = ""
   ↔ comma_parts address1 = [])
  ∧ (comma_parts address1 ≠ [] →
     address_line1 (parse_verified_address address1 existing_unit)
     ∈ comma_parts address1).
Proof.
  pose proof (comma_parts_truthy address1) as Ht.
  unfold parse_verified_address.
  destruct (comma_parts address1) as [|p0 [|p1 rest]] eqn:E.
  - split; [done|]. by intros [].
  - apply Forall_cons in Ht as [H0 _]. apply truthy_true in H0.
    change (address_line1 _) with p0.
    split; [split; [done|discriminate]|]. intros _. constructor.
  - apply Forall_cons in Ht as [H0 [H1 _]%Forall_cons].
    apply truthy_true in H0, H1.
    change (part (p0 :: p1 :: rest) 0) with p0.
    change (part (p0 :: p1 :: rest) 1) with p1.
    change (negb (Py.nonempty (p0 :: p1 :: rest))) with false. cbv iota.
    set (n := Z.of_nat (length (p0 :: p1 :: rest))).
    assert (2 <= n) as Hn by (subst n; cbn [length]; lia).
    assert ((n =? 1) = false) as -> by (apply Z.eqb_neq; lia).
    assert ((2 <=? n) = true) as -> by (apply Z.leb_le; lia).
    destruct (Py.contains "courthouse" (Py.lower p0)); cbn [andb].
    + assert (address_line1
                (if 3 <=? n
                 then set_unit (part (p0 :: p1 :: rest) 2)
                        (set_address_line1 p1
                           (set_building p0
                              {| building := ""; address_line1 := "";
                                 unit := existing_unit |}))
                 else set_address_line1 p1
                        (set_building p0
                           {| building := ""; address_line1 := "";
                              unit := existing_unit |})) = p1) as ->
        by by destruct (3 <=? n).
      split; [split; [done|discriminate]|]. intros _. do 2 constructor.
    + assert (∀ q, address_line1
                     (if 2 <? n
                      then set_unit q
                             (set_unit p1
                                (set_address_line1 p0
                                   {| building := ""; address_line1 := "";
                                      unit := existing_unit |}))
                      else set_unit p1
                             (set_address_line1 p0
                                {| building := ""; address_line1 := "";
                                   unit := existing_unit |})) = p0) as ->
        by (intros q; by destruct (2 <? n)).
      split; [split; [done|discriminate]|]. intros _. constructor.
Qed.

(** X16: the display string that [build_orig_address] makes is empty only
    when all seven of its arguments are. *)
Theorem build_orig_address_empty_iff
    (building address_line1 unit address2 city state zip_code : string) :
  build_orig_address building address_line1 unit address2 city state zip_code
  = ""
  ↔ building = "" ∧ address_line1 = "" ∧ unit = "" ∧ address2 = ""
    ∧ city = "" ∧ state = "" ∧ zip_code = "".
Proof.
  split.
  - destruct building, address_line1, unit, address2, city, state, zip_code;
      first [discriminate | done].
  - by intros (-> & -> & -> & -> & -> & -> & ->).
Qed.

(** X17: [parse_verified_address] undoes the street part of
    [build_orig_address].  For a line and a unit that are not empty, have
    no comma and no white space at their ends, the display string without
    second line, city, state and zip parses back into the line and the unit
    when the line does not contain "courthouse"; with such a building that
    contains "courthouse" it parses back into building, line and unit. *)
Theorem parse_undoes_street_part
    (building line1 unit_ existing_unit : string) :
  plain_part (Py.chars line1) → plain_part (Py.chars unit_) →
  (Py.contains "courthouse" (Py.lower line1) = false →
   parse_verified_address
     (build_orig_address "" line1 unit_ "" "" "" "") existing_unit
   = {| building := ""; address_line1 := line1; unit := unit_ |})
  ∧ (plain_part (Py.chars building) →
     Py.contains "courthouse" (Py.lower building) = true →
     parse_verified_address
       (build_orig_address building line1 unit_ "" "" "" "") existing_unit
     = {| building := building; address_line1 := line1; unit := unit_ |}).
Proof.
  intros Hline Hunit.
  assert (∀ q, plain_part (Py.chars q) → Py.truthy q = true) as Htruthy.
  { intros q Hq%plain_part_nonempty. destruct q; [done|reflexivity]. }
  split.
  - intros Hno.
    assert (build_orig_address "" line1 unit_ "" "" "" ""
            = Py.join ", " [line1; unit_]) as ->.
    { unfold build_orig_address. cbn [List.filter Py.truthy].
      rewrite (Htruthy _ Hline), (Htruthy _ Hunit). reflexivity. }
    unfold parse_verified_address.
    rewrite (comma_parts_join_plain [line1; unit_])
      by (repeat first
            [apply Forall_nil_2 | apply Forall_cons_2; [assumption|]]).
    change (part [line1; unit_] 0) with line1. by rewrite Hno.
  - intros Hbuilding Hyes.
    assert (build_orig_address building line1 unit_ "" "" "" ""
            = Py.join ", " [building; line1; unit_]) as ->.
    { unfold build_orig_address. cbn [List.filter Py.truthy].
      rewrite (Htruthy _ Hline), (Htruthy _ Hunit), (Htruthy _ Hbuilding).
      reflexivity. }
    unfold parse_verified_address.
    rewrite (comma_parts_join_plain [building; line1; unit_])
      by (repeat first
            [apply Forall_nil_2 | apply Forall_cons_2; [assumption|]]).
    change (part [building; line1; unit_] 0) with building.
    by rewrite Hyes.
Qed.

End Parts.

(** ** The updates that [main] applies *)

Section Updates.

Import Apply.

(** X18: after the merge the display string is the one
    [build_orig_address] makes from the fields of the merged address, the
    building of the parse and the second verified line. *)
Theorem merged_display_string_is_rebuilt (addr info : gmap string string) :
  let merged := merge_address addr info in
  Py.get merged "orig_address"
  = build_orig_address
      (building
         (parse_verified_address (Py.get info "verified_address1")
            (Py.get addr "unit")))
      (Py.get merged "address") (Py.get merged "unit")
      (Py.get info "verified_address2") (Py.get merged "city")
      (Py.get merged "state") (Py.get merged "zip").
Proof.
  cbv zeta. unfold merge_address. cbv zeta. rewrite get_insert_eq.
  by rewrite !(get_insert_ne _ "orig_address") by discriminate.
Qed.

(** X19: the merge takes what the verification gives.  City, state and zip
    are the verified value when it is not empty and the former value
    otherwise; a parse with a line puts it into the address; a parse with a
    unit puts it into the unit, and a parse without one removes the unit. *)
Theorem merge_takes_verified_values (addr info : gmap string string) :
  let parsed :=
    parse_verified_address (Py.get info "verified_address1")
      (Py.get addr "unit") in
  let merged := merge_address addr info in
  Py.get merged "city"
  = Py.or_else (Py.get info "verified_city") (Py.get addr "city")
  ∧ Py.get merged "state"
    = Py.or_else (Py.get info "verified_state") (Py.get addr "state")
  ∧ Py.get merged "zip"
    = Py.or_else (Py.get info "verified_zip") (Py.get addr "zip")
  ∧ (address_line1 parsed ≠ "" →
     merged !! "address" = Some (address_line1 parsed))
  ∧ (unit parsed ≠ "" → merged !! "unit" = Some (unit parsed))
  ∧ (unit parsed = "" → merged !! "unit" = None).
Proof.
  cbv zeta.
  split; [apply merge_address_city|].
  split; [apply merge_address_state|].
  split; [apply merge_address_zip|].
  rewrite !merge_address_early_keys by discriminate. cbv zeta.
  split; [|split].
  - intros H%truthy_true. rewrite H.
    destruct (Py.truthy (unit _)); skip_other_keys;
      by rewrite lookup_insert_eq.
  - intros H%truthy_true. rewrite H. by rewrite lookup_insert_eq.
  - intros H. rewrite H. cbn [Py.truthy]. by rewrite lookup_delete_eq.
Qed.

Lemma merge_takes_verified_values_witness :
  let merged :=
    merge_address Samples.worcester_address Samples.full_verification in
  merged !! "address" = Some "225 Main St"
  ∧ merged !! "unit" = Some "Room 4"
  ∧ Py.get merged "city" = "Worcester".
Proof.
  cbv zeta.
  destruct (merge_takes_verified_values Samples.worcester_address
              Samples.full_verification)
    as (Hcity & _ & _ & Hline & Hunit & _).
  split; [rewrite Hline; vm_compute; [reflexivity|discriminate]|].
  split; [rewrite Hunit; vm_compute; [reflexivity|discriminate]|].
  rewrite Hcity. vm_compute. reflexivity.
Defined.

Lemma map_none_matching {A : Type} (f : A → bool) (g : A → A) (l : list A) :
  List.filter f l = [] → map (fun x => if f x then g x else x) l = l.
Proof.
  induction l as [|x l IH]; [done|]. cbn [List.filter map].
  destruct (f x); [discriminate|]. intros H. by rewrite IH.
Qed.

Lemma map_one_matching {A : Type} (f : A → bool) (g : A → A) (l : list A)
    (e : A) :
  List.filter f l = [e] →
  ∃ i : nat, l !! i = Some e ∧ f e = true
             ∧ map (fun x => if f x then g x else x) l = <[i := g e]> l.
Proof.
  induction l as [|x l IH]; [discriminate|]. cbn [List.filter map].
  destruct (f x) eqn:E.
  - intros [= -> H]. exists 0%nat. rewrite (map_none_matching _ _ _ H).
    done.
  - intros (i & Hi & He & Hmap)%IH. exists (S i). by rewrite Hmap.
Qed.

(** X20: when a round of [main] ends without an error, either the
    verification is not one to apply and the entries are untouched, or
    exactly one entry, the one with the name and (without regard to case)
    the city of the key, is replaced by its update; the other entries and
    the number of entries stay. *)
Theorem apply_verification_changes_one_entry (data data' : list Entry)
    (court_name court_city : string) (info : gmap string string) :
  apply_verification data court_name court_city info = inr data' →
  (Py.get info "final_action" ≠ "update_local_from_verified" ∧ data' = data)
  ∨ (Py.get info "final_action" = "update_local_from_verified"
     ∧ ∃ (i : nat) (e : Entry),
         data !! i = Some e
         ∧ name e = court_name
         ∧ Py.lower (Py.get (entry_address e) "city") = Py.lower court_city
         ∧ data' = <[i := update_entry e info]> data
         ∧ length data' = length data
         ∧ ∀ j e', j ≠ i → data !! j = Some e' →
                   data' !! j = Some e'
                   ∧ entry_matches court_name court_city e' = false).
Proof.
  unfold apply_verification.
  destruct (String.eqb_spec (Py.get info "final_action")
              "update_local_from_verified") as [Hact | Hact]; cbn [negb].
  2: { intros [= <-]. by left. }
  destruct (List.filter _ data) as [|e [|e2 rest]] eqn:Hf; [done| |done].
  intros [= <-]. right. split; [done|].
  destruct (map_one_matching _ (fun e => update_entry e info) _ _ Hf)
    as (i & Hi & He & Hmap).
  exists i, e. rewrite Hmap.
  apply andb_true_iff in He as [Hn Hc].
  apply String.eqb_eq in Hn, Hc.
  do 4 (split; [done|]). split; [apply length_insert|].
  intros j e' Hji Hj. split; [by rewrite list_lookup_insert_ne|].
  { destruct (entry_matches court_name court_city e') eqn:He'; [|done].
    exfalso.
    assert (∀ (l : list Entry) j k x y,
              j ≠ k → l !! j = Some x → l !! k = Some y →
              entry_matches court_name court_city x = true →
              entry_matches court_name court_city y = true →
              (2 <= length (List.filter
                              (entry_matches court_name court_city) l))%nat)
      as Htwo.
    { clear. induction l as [|z l IH]; intros j k x y Hjk Hj Hk Hx Hy;
        [done|].
      cbn [List.filter].
      assert (∀ n w, l !! n = Some w →
                entry_matches court_name court_city w = true →
                (1 <= length (List.filter
                                (entry_matches court_name court_city) l))%nat)
        as Hone.
      { clear. induction l as [|z l IH]; intros n w Hn Hw; [done|].
        cbn [List.filter]. destruct n as [|n].
        - injection Hn as ->. rewrite Hw. cbn [length]. lia.
        - specialize (IH n w Hn Hw).
          destruct (entry_matches _ _ z); cbn [length]; lia. }
      destruct j as [|j], k as [|k]; [done| | |].
      - injection Hj as ->. rewrite Hx. cbn [length].
        specialize (Hone k y Hk Hy). lia.
      - injection Hk as ->. rewrite Hy. cbn [length].
        specialize (Hone j x Hj Hx). lia.
      - assert (j ≠ k) as Hjk' by congruence.
        specialize (IH j k x y Hjk' Hj Hk Hx Hy).
        destruct (entry_matches _ _ z); cbn [length]; lia. }
    assert (entry_matches court_name court_city e = true) as Hme
      by (unfold entry_matches; rewrite Hn, Hc, !String.eqb_refl; done).
    specialize (Htwo data j i e' e Hji Hj Hi He' Hme).
    rewrite Hf in Htwo. cbn [length] in Htwo. lia. }
Qed.

Lemma apply_verification_changes_one_entry_witness :
  ∃ (i : nat) (e : Entry),
    [Samples.worcester_entry] !! i = Some e
    ∧ name e = "Worcester District Court".
Proof.
  destruct (apply_verification_changes_one_entry
              [Samples.worcester_entry]
              [update_entry Samples.worcester_entry
                 Samples.no_verified_address]
              "Worcester District Court" "WORCESTER"
              Samples.no_verified_address)
    as [[H _] | (_ & i & e & Hi & Hn & _)].
  - vm_compute. reflexivity.
  - exfalso. apply H. vm_compute. reflexivity.
  - exists i, e. by split.
Defined.

Lemma filter_nil_none {A : Type} (f : A → bool) (l : list A) :
  List.filter f l = [] → Forall (fun x => f x = false) l.
Proof.
  induction l as [|x l IH]; [constructor|]. cbn [List.filter].
  destruct (f x) eqn:E; [discriminate|]. intros H. constructor; auto.
Qed.

Lemma filter_head {A : Type} (f : A → bool) (l : list A) (x : A)
    (r : list A) :
  List.filter f l = x :: r →
  ∃ i : nat, l !! i = Some x ∧ f x = true
             ∧ List.filter f (drop (S i) l) = r.
Proof.
  induction l as [|z l IH]; [discriminate|]. cbn [List.filter].
  destruct (f z) eqn:E.
  - intros [= -> <-]. by exists 0%nat.
  - intros (i & ? & ? & ?)%IH. by exists (S i).
Qed.

(** X21: the two errors of a round of [main].  "No entry found" is raised
    only for a verification to apply when no entry has the name and the
    city of the key, "Multiple entries found" only when two entries at
    different places have them; a verification that is not to be applied
    never raises and leaves the entries as they are. *)
Theorem apply_verification_errors (data : list Entry)
    (court_name court_city : string) (info : gmap string string) :
  (apply_verification data court_name court_city info = inl NoEntryFound →
   Py.get info "final_action" = "update_local_from_verified"
   ∧ Forall (fun e => entry_matches court_name court_city e = false) data)
  ∧ (apply_verification data court_name court_city info
     = inl MultipleEntriesFound →
     Py.get info "final_action" = "update_local_from_verified"
     ∧ ∃ (i j : nat) (e1 e2 : Entry),
         (i < j)%nat ∧ data !! i = Some e1 ∧ data !! j = Some e2
         ∧ entry_matches court_name court_city e1 = true
         ∧ entry_matches court_name court_city e2 = true)
  ∧ (Py.get info "final_action" ≠ "update_local_from_verified" →
     apply_verification data court_name court_city info = inr data).
Proof.
  unfold apply_verification.
  destruct (String.eqb_spec (Py.get info "final_action")
              "update_local_from_verified") as [Hact | Hact]; cbn [negb].
  2: { by repeat split. }
  destruct (List.filter _ data) as [|e1 [|e2 rest]] eqn:Hf.
  - split; [|by split]. intros _. split; [done|].
    by apply filter_nil_none.
  - by repeat split.
  - split; [done|]. split; [|done]. intros _. split; [done|].
    apply filter_head in Hf as (i & Hi & H1 & Hf).
    apply filter_head in Hf as (k & Hk & H2 & _).
    rewrite lookup_drop in Hk.
    exists i, (S i + k)%nat, e1, e2. repeat split; try done. lia.
Qed.

Lemma apply_verification_errors_witness :
  Forall (fun e => entry_matches "Boston Municipal Court" "Boston" e = false)
    [Samples.worcester_entry]
  ∧ apply_verification [Samples.worcester_entry] "Worcester District Court"
      "Worcester" Samples.only_manual_note
    = inr [Samples.worcester_entry].
Proof.
  destruct (apply_verification_errors [Samples.worcester_entry]
              "Boston Municipal Court" "Boston" Samples.no_verified_address)
    as (Hnone & _ & _).
  split; [apply Hnone; vm_compute; reflexivity|].
  apply (apply_verification_errors [Samples.worcester_entry]
           "Worcester District Court" "Worcester" Samples.only_manual_note).
  vm_compute. discriminate.
Defined.

Lemma split_colons_last (acc l : list ascii) :
  split_colons 0 acc l = [(rev acc ++ l)%list].
Proof. by destruct l. Qed.

Lemma split_colons_piece (m : nat) (acc p rest : list ascii) :
  Forall (fun c => c ≠ ":"%char) p →
  split_colons (S m) acc (p ++ ":"%char :: ":"%char :: rest)
  = (rev acc ++ p)%list :: split_colons m [] rest.
Proof.
  intros Hp. revert acc. induction Hp as [|c p Hc _ IH]; intros acc.
  - cbn [app split_colons]. change (Ascii.eqb ":" ":") with true.
    cbn [andb]. by rewrite app_nil_r.
  - change (split_colons (S m) acc
              ((c :: p) ++ ":"%char :: ":"%char :: rest))
      with (match (p ++ ":"%char :: ":"%char :: rest)%list with
            | c' :: r' =>
                if Ascii.eqb c ":" && Ascii.eqb c' ":"
                then rev acc :: split_colons m [] r'
                else split_colons (S m) (c :: acc)
                       (p ++ ":"%char :: ":"%char :: rest)
            | [] => split_colons (S m) (c :: acc)
                      (p ++ ":"%char :: ":"%char :: rest)
            end).
    destruct (Ascii.eqb_spec c ":"); [done|]. cbn [andb].
    rewrite IH. cbn [rev]. rewrite <- app_assoc.
    by destruct (p ++ ":"%char :: ":"%char :: rest)%list.
Qed.

(** X22: the key that the report builds for a record is split by [main]
    into the source file, the name and the city of that record, when
    neither the source file nor the name contains a colon; the city may
    contain any character. *)
Theorem split_key_of_manual_key (local : Validate.LocalCourt) :
  Forall (fun c => c ≠ ":"%char) (Py.chars (Validate.source_file local)) →
  Forall (fun c => c ≠ ":"%char) (Py.chars (Validate.name local)) →
  split_key (Validate.manual_key local)
  = [Validate.source_file local; Validate.name local; Validate.city local].
Proof.
  intros Hfile Hname. unfold split_key, Validate.manual_key.
  rewrite !chars_append. change (Py.chars "::") with [":"; ":"]%char.
  cbn [app].
  rewrite (split_colons_piece 1 [] _ _ Hfile).
  rewrite (split_colons_piece 0 [] _ _ Hname).
  rewrite split_colons_last. cbn [rev app map].
  by rewrite !str_chars.
Qed.

Lemma split_key_of_manual_key_witness :
  split_key (Validate.manual_key Samples.worcester_street)
  = ["district_courts.json"; "Worcester District Court"; "Worcester"].
Proof.
  apply (split_key_of_manual_key Samples.worcester_street);
    repeat first [apply Forall_nil_2 | apply Forall_cons_2; [discriminate|]].
Defined.

Lemma main_round_skips (disk files_cache : gmap string (list Entry))
    (key : string) (info : gmap string string) :
  String.eqb (Py.get info "final_action") "update_local_from_verified"
  = false →
  main_round disk files_cache key info = inr files_cache.
Proof. intros H. unfold main_round. by rewrite H. Qed.

(** X23: [main] passes over every verification whose final action is not
    [update_local_from_verified], whatever its key is: the result, files
    or error, is that of the verifications to apply alone, and without any
    of those no file is written. *)
Theorem main_skips_other_actions (disk : gmap string (list Entry))
    (manual : list (string * gmap string string)) :
  let to_apply :=
    List.filter
      (fun record =>
         String.eqb (Py.get record.2 "final_action")
           "update_local_from_verified") manual in
  main disk manual = main disk to_apply
  ∧ (to_apply = [] → main disk manual = inr ∅).
Proof.
  cbv zeta. unfold main.
  assert (∀ files_cache,
            main_loop disk manual files_cache
            = main_loop disk
                (List.filter
                   (fun record =>
                      String.eqb (Py.get record.2 "final_action")
                        "update_local_from_verified") manual)
                files_cache) as Hloop.
  { induction manual as [|[key info] rest IH]; intros files_cache; [done|].
    cbn [List.filter snd main_loop].
    destruct (String.eqb _ _) eqn:E.
    - cbn [main_loop]. destruct (main_round _ _ _ _); [done|apply IH].
    - by rewrite (main_round_skips _ _ _ _ E). }
  split; [apply Hloop|]. intros H. by rewrite Hloop, H.
Qed.

Lemma main_skips_other_actions_witness :
  main (∅ : gmap string (list Entry))
    [("no such key", Samples.only_manual_note)] = inr ∅.
Proof.
  apply (main_skips_other_actions ∅
           [("no such key", Samples.only_manual_note)]).
  vm_compute. reflexivity.
Defined.

End Updates.

(** ** What the two flags of a match mean *)

Section Flags.

Import Validate.

Lemma address_loop_flag (local_addr_norm orig : string)
    (addrs : list (gmap string string)) (score : float) :
  (address_loop local_addr_norm orig addrs score).2 = true
  ↔ ∃ addr, addr ∈ addrs
            ∧ normalize_address (Py.get addr "address_line1") ≠ ""
            ∧ (normalize_address (Py.get addr "address_line1")
               = local_addr_norm
               ∨ (orig ≠ ""
                  ∧ Py.contains
                      (normalize_address (Py.get addr "address_line1"))
                      (normalize_address orig) = true)).
Proof.
  induction addrs as [|a rest IH].
  { cbn [address_loop snd]. split; [discriminate|].
    by intros (? & []%elem_of_nil & _). }
  cbn [address_loop].
  set (an := normalize_address (Py.get a "address_line1")).
  destruct (Py.truthy an) eqn:Ht.
  2: { cbn [andb]. rewrite andb_false_r. cbn [andb]. rewrite IH.
       apply truthy_false in Ht. split.
       - intros (addr & Hin & H). exists addr. split; [by right|done].
       - intros (addr & [-> | Hin]%elem_of_cons & Hne & H); [|eauto].
         by fold an in Hne. }
  apply truthy_true in Ht. cbn [andb].
  destruct (String.eqb_spec an local_addr_norm) as [Heq | Hneq].
  { cbn [snd]. split; [|done]. intros _. exists a.
    split; [by left|]. split; [done|by left]. }
  destruct (Py.truthy orig) eqn:Ho; cbn [andb].
  - apply truthy_true in Ho.
    destruct (Py.contains an (normalize_address orig)) eqn:Hc.
    + cbn [snd]. split; [|done]. intros _. exists a.
      split; [by left|]. split; [done|by right].
    + rewrite IH. split.
      * intros (addr & Hin & H). exists addr. split; [by right|done].
      * intros (addr & [-> | Hin]%elem_of_cons & Hne & H); [|eauto].
        fold an in H. destruct H as [? | [_ ?]]; congruence.
  - apply truthy_false in Ho. rewrite IH. split.
    + intros (addr & Hin & H). exists addr. split; [by right|done].
    + intros (addr & [-> | Hin]%elem_of_cons & Hne & H); [|eauto].
      fold an in H. destruct H as [? | [? _]]; congruence.
Qed.

(** X24: the flags say what they are named for.  [addr_match] is true
    exactly when the normalised address line of the record is not empty
    and some address of the location has a non-empty normalised first line
    that equals it or, for a record with a display string, is a substring
    of the normalised display string; [city_match] is true exactly when
    the normalised city of the record is not empty and in the city set. *)
Theorem match_flags_sound (local : LocalCourt) (loc : MassGovLocation) :
  ((score_location local loc).1.2 = true
   ↔ normalize_address (address1 local) ≠ ""
     ∧ ∃ addr, addr ∈ addresses loc
               ∧ normalize_address (Py.get addr "address_line1") ≠ ""
               ∧ (normalize_address (Py.get addr "address_line1")
                  = normalize_address (address1 local)
                  ∨ (orig_address local ≠ ""
                     ∧ Py.contains
                         (normalize_address (Py.get addr "address_line1"))
                         (normalize_address (orig_address local)) = true)))
  ∧ ((score_location local loc).2 = true
     ↔ normalize_text (city local) ≠ ""
       ∧ normalize_text (city local) ∈ cities loc).
Proof.
  rewrite score_location_unfold. cbn [fst snd]. split.
  - destruct (Py.truthy (normalize_address (address1 local))) eqn:Ht.
    + apply truthy_true in Ht. rewrite address_loop_flag. by split; [|intros []].
    + apply truthy_false in Ht. split; [discriminate|]. by intros [].
  - unfold Spec.city_agrees.
    rewrite andb_true_iff, truthy_true, bool_decide_eq_true. done.
Qed.

End Flags.

(** ** The parts that [comma_parts] returns *)

Section PlainParts.

Import NormalForm Tokens Apply.

Lemma split_on_aux_no_comma (acc l : list ascii) :
  Forall (fun c => c ≠ ","%char) acc →
  Forall (Forall (fun c => c ≠ ","%char)) (Py.split_on_aux "," acc l).
Proof.
  revert acc. induction l as [|c r IH]; intros acc Hacc;
    cbn [Py.split_on_aux].
  - repeat constructor. by apply Forall_rev.
  - destruct (Ascii.eqb_spec c ",").
    + constructor; [by apply Forall_rev|by apply IH].
    + apply IH. by constructor.
Qed.

Lemma lstrip_sublist (P : ascii → Prop) (l : list ascii) :
  Forall P l → Forall P (Py.lstrip_chars l).
Proof.
  induction 1 as [|c r Hc Hr IH]; [done|]. cbn [Py.lstrip_chars].
  destruct (Py.is_space c); [done|by constructor].
Qed.

Lemma strip_sublist (P : ascii → Prop) (l : list ascii) :
  Forall P l → Forall P (Py.strip_chars l).
Proof.
  intros H. unfold Py.strip_chars.
  by apply Forall_rev, lstrip_sublist, Forall_rev, lstrip_sublist.
Qed.

Lemma strip_plain_part (l : list ascii) :
  Forall (fun c => c ≠ ","%char) l →
  Py.strip_chars l ≠ [] → plain_part (Py.strip_chars l).
Proof.
  intros Hl Hne. split; [by apply strip_sublist|]. split.
  - unfold Py.strip_chars in *. rewrite rstrip_chars_rev in *.
    pose proof (lstrip_head l) as Hh.
    destruct (Py.lstrip_chars l) as [|c r]; [done|].
    destruct (rstrip_keeps_head c r Hh) as [r' ->]. eauto.
  - unfold Py.strip_chars in *.
    pose proof (lstrip_head (rev (Py.lstrip_chars l))) as Hh.
    destruct (Py.lstrip_chars (rev (Py.lstrip_chars l))) as [|c r];
      [done|].
    exists (rev r), c. by cbn [rev].
Qed.

(** X25: every part that [comma_parts] returns is not empty, has no comma
    and no white space at either end; so joining the parts with ", " and
    taking the parts again changes nothing. *)
Theorem comma_parts_are_plain (address1 : string) :
  Forall (fun p => plain_part (Py.chars p)) (comma_parts address1)
  ∧ comma_parts (Py.join ", " (comma_parts address1)) = comma_parts address1.
Proof.
  assert (Forall (fun p => plain_part (Py.chars p)) (comma_parts address1))
    as Hplain; [|split; [done|by apply comma_parts_join_plain]].
  unfold comma_parts. apply Forall_map, Forall_forall.
  intros part [Hin Ht]%list_elem_of_In%filter_In.
  unfold Py.split_on in Hin. apply in_map_iff in Hin as (l & <- & Hin).
  rewrite strip_str in Ht |- *. rewrite chars_str.
  apply strip_plain_part.
  - pose proof (split_on_aux_no_comma [] (Py.chars address1)
                  (Forall_nil_2 _)) as Hall.
    rewrite Forall_forall in Hall. by apply Hall, list_elem_of_In.
  - intros E. by rewrite E in Ht.
Qed.

End PlainParts.

(** ** The further properties on the sample records *)

Section OnSamples.

Import Tokens Validate.

Lemma normalize_text_empty_iff_witness :
  normalize_text "   " = "" ∧ normalize_text ".,." = " ".
Proof.
  split.
  - apply (proj2 (proj1 (normalize_text_empty_iff "   "))).
    repeat first [apply Forall_nil_2 | apply Forall_cons_2; [reflexivity|]].
  - apply (proj2 (normalize_text_empty_iff ".,.")); [discriminate|].
    repeat first
      [ apply Forall_nil_2
      | apply Forall_cons_2; [first [by left | by right]|] ].
Defined.

Lemma candidate_locations_stable_witness :
  Samples.worcester_district
  ∈ [Samples.boston_housing; Samples.worcester_district].
Proof.
  apply (proj1 (candidate_locations_stable "Worcester"
                  [Samples.boston_housing; Samples.worcester_district])).
  vm_compute. do 2 constructor.
Defined.

Lemma recommend_action_table_witness :
  (recommend_action Samples.worcester_street (Some Samples.worcester_district)
     1.1%float false true).1.1 = "update_local_from_massgov".
Proof.
  apply (proj2 (proj1 (proj2 (proj2
           (recommend_action_table Samples.worcester_street
              (Some Samples.worcester_district) 1.1%float false true))))).
  exists Samples.worcester_district.
  split; [reflexivity|]. split; [reflexivity|].
  split; [vm_compute; reflexivity|]. split; [reflexivity|].
  vm_compute. discriminate.
Defined.

Lemma collect_addresses_dedupes_witness :
  collect_addresses ["contact"] Samples.contact_addresses
    Samples.address_table = [Samples.main_street]
  ∧ Samples.main_street ≠ ∅.
Proof.
  assert (collect_addresses ["contact"] Samples.contact_addresses
            Samples.address_table = [Samples.main_street]) as Hlist
    by (vm_compute; reflexivity).
  split; [exact Hlist|].
  apply (proj1 (proj2 (collect_addresses_dedupes ["contact"]
                         Samples.contact_addresses Samples.address_table))
           Samples.main_street).
  rewrite Hlist. constructor.
Defined.

Lemma built_location_is_candidate_witness :
  Samples.fetched_location
  ∈ candidate_locations " WORCESTER"
      [Samples.boston_housing; Samples.fetched_location].
Proof.
  apply (proj2 (built_location_is_candidate "Worcester District Court"
                  "node" None ["contact"] Samples.contact_addresses
                  Samples.address_table
                  [Samples.boston_housing; Samples.fetched_location]
                  " WORCESTER")).
  - do 2 constructor.
  - exists Samples.main_street. split; [|split].
    + assert (addresses Samples.fetched_location = [Samples.main_street])
        as Hlist by (vm_compute; reflexivity).
      unfold Samples.fetched_location in Hlist. rewrite Hlist. constructor.
    + vm_compute. discriminate.
    + vm_compute. reflexivity.
Defined.

Lemma plain_main_street : plain_part (Py.chars "1 Main St").
Proof.
  split; [|split].
  - repeat first [apply Forall_nil_2 | apply Forall_cons_2; [discriminate|]].
  - exists "1"%char, (Py.chars " Main St"). by split.
  - exists (Py.chars "1 Main S"), "t"%char. by split.
Qed.

Lemma plain_suite : plain_part (Py.chars "Suite 2").
Proof.
  split; [|split].
  - repeat first [apply Forall_nil_2 | apply Forall_cons_2; [discriminate|]].
  - exists "S"%char, (Py.chars "uite 2"). by split.
  - exists (Py.chars "Suite "), "2"%char. by split.
Qed.

Lemma comma_parts_join_witness :
  Apply.comma_parts (Py.join ", " ["1 Main St"; "Suite 2"])
  = ["1 Main St"; "Suite 2"].
Proof.
  apply (comma_parts_join ["1 Main St"; "Suite 2"]).
  repeat first
    [ apply Forall_nil_2
    | apply Forall_cons_2; [first [exact plain_main_street
                                  |exact plain_suite]|] ].
Defined.

Lemma parsed_line_empty_iff_witness :
  Apply.address_line1 (Apply.parse_verified_address " , " "Room 4") = ""
  ∧ Apply.address_line1 (Apply.parse_verified_address "1 Main St, Suite 2" "")
    ∈ Apply.comma_parts "1 Main St, Suite 2".
Proof.
  split.
  - apply (proj2 (proj1 (parsed_line_empty_iff " , " "Room 4"))).
    vm_compute. reflexivity.
  - apply (proj2 (parsed_line_empty_iff "1 Main St, Suite 2" "")).
    vm_compute. discriminate.
Defined.

Lemma build_orig_address_empty_iff_witness :
  Apply.build_orig_address "" "" "" "" "" "" "" = "".
Proof.
  apply (proj2 (build_orig_address_empty_iff "" "" "" "" "" "" "")).
  repeat split.
Defined.

Lemma parse_undoes_street_part_witness :
  Apply.parse_verified_address
    (Apply.build_orig_address "" "1 Main St" "Suite 2" "" "" "" "") "Room 4"
  = {| Apply.building := ""; Apply.address_line1 := "1 Main St";
       Apply.unit := "Suite 2" |}.
Proof.
  apply (proj1 (parse_undoes_street_part "" "1 Main St" "Suite 2" "Room 4"
                  plain_main_street plain_suite)).
  vm_compute. reflexivity.
Defined.

Lemma match_flags_sound_witness :
  (score_location Samples.worcester_street Samples.worcester_district).2
  = true.
Proof.
  apply (proj2 (proj2 (match_flags_sound Samples.worcester_street
                         Samples.worcester_district))).
  split; [vm_compute; discriminate|].
  apply elem_of_union_l, elem_of_singleton. vm_compute. reflexivity.
Defined.

End OnSamples.
